(** * SABnzbd to Discord notification script: a shallow embedding

    The development follows [sabnzbd-discord.py].  Python strings are
    sequences of Unicode code points, Python integers are unbounded,
    Python floats are IEEE binary64 numbers and dictionaries are finite
    maps; the embedding keeps each of them as such.  What a function
    prints and sends is returned as a list of events next to its result,
    and a result is [None] where the source raises.  What the code takes
    from its environment is a parameter: the transport, the clock, the
    working directory, and the functions [str.lower] and
    [str.capitalize] of Python, which read the case tables of Unicode.

    The functions are embedded as they are defined.  The statements at
    the top level of the module are not run: among them the source has a
    bare name [g] on a line of its own, which Python rejects with a
    [NameError] when it loads the file. *)

From Stdlib Require Import ZArith List Lia Bool.
From Stdlib Require Import Strings.String Strings.Ascii.
From Stdlib Require Import Floats.PrimFloat Floats.FloatOps Floats.SpecFloat.
From Stdlib Require Import Numbers.Cyclic.Int63.Uint63.
From stdpp Require Import base option list gmap.

Local Open Scope Z_scope.

(** ** Strings *)

Module PyStr.

(** A Python [str] is a list of code points. *)
Definition str : Type := list Z.

(** Literals of the source that are plain ASCII are written as Rocq
    strings and read code point by code point. *)
Definition lit (x : String.string) : str :=
  map (fun a => Z.of_N (N_of_ascii a)) (list_ascii_of_string x).

(** The code points for which [str.isspace] holds; [str.strip] without
    argument removes exactly these. *)
Definition isspace (c : Z) : bool :=
  ((9 <=? c) && (c <=? 13)) || ((28 <=? c) && (c <=? 32))
  || (c =? 0x85) || (c =? 0xA0) || (c =? 0x1680)
  || ((0x2000 <=? c) && (c <=? 0x200A))
  || (c =? 0x2028) || (c =? 0x2029) || (c =? 0x202F)
  || (c =? 0x205F) || (c =? 0x3000).

(** The line boundaries of [str.splitlines]. *)
Definition islinebreak (c : Z) : bool :=
  ((10 <=? c) && (c <=? 13)) || ((28 <=? c) && (c <=? 30))
  || (c =? 0x85) || (c =? 0x2028) || (c =? 0x2029).

Fixpoint lstrip (s : str) : str :=
  match s with
  | [] => []
  | c :: r => if isspace c then lstrip r else s
  end.

Definition rstrip (s : str) : str := rev (lstrip (rev s)).

Definition strip (s : str) : str := rstrip (lstrip s).

(** [str.lower] and [str.capitalize] on ASCII text, where no table of
    Unicode is needed.  [extract_fields_from_message] uses this [lower]:
    it only compares the result with three keys of ASCII letters, and
    no code point outside ASCII lower-cases into their letters.  [main]
    and [make_embed], whose results show the converted text, take
    Python's functions as parameters instead ([str_lower] and
    [str_capitalize] below); these two serve as their instances on
    ASCII arguments. *)
Definition lower_char (c : Z) : Z :=
  if (65 <=? c) && (c <=? 90) then c + 32 else c.

Definition upper_char (c : Z) : Z :=
  if (97 <=? c) && (c <=? 122) then c - 32 else c.

Definition lower (s : str) : str := map lower_char s.

Definition capitalize (s : str) : str :=
  match s with
  | [] => []
  | c :: r => upper_char c :: lower r
  end.

(** [s.split(sep)] for a one-character separator. *)
Fixpoint split (sep : Z) (s : str) : list str :=
  match s with
  | [] => [[]]
  | c :: r =>
      if c =? sep then [] :: split sep r
      else match split sep r with
           | l :: ls => (c :: l) :: ls
           | [] => [[c]]
           end
  end.

(** [sep in s] followed by [k, v = s.split(sep, 1)]: the text before the
    first [sep] and the text after it, [None] when [sep] is not in [s]. *)
Fixpoint split_once (sep : Z) (s : str) : option (str * str) :=
  match s with
  | [] => None
  | c :: r =>
      if c =? sep then Some ([], r)
      else match split_once sep r with
           | Some (k, v) => Some (c :: k, v)
           | None => None
           end
  end.

(** [s.splitlines()]: a carriage return followed by a line feed is one
    boundary, and a final boundary opens no empty line. *)
Fixpoint splitlines (s : str) : list str :=
  match s with
  | [] => []
  | c :: r =>
      if islinebreak c then
        [] :: match r with
              | c' :: r' =>
                  if (c =? 13) && (c' =? 10) then splitlines r'
                  else splitlines r
              | [] => []
              end
      else match splitlines r with
           | l :: ls => (c :: l) :: ls
           | [] => [[c]]
           end
  end.

(** [sep.join(ls)]. *)
Fixpoint join (sep : str) (ls : list str) : str :=
  match ls with
  | [] => []
  | [l] => l
  | l :: ls' => l ++ sep ++ join sep ls'
  end.

(** Truth value of a string: the empty string is false. *)
Definition truthy (s : str) : bool :=
  match s with [] => false | _ => true end.

(** [a or b] on strings. *)
Definition str_or (a b : str) : str := if truthy a then a else b.

(** [d.get(k) or b]: [None] and the empty string both give [b]. *)
Definition get_or (o : option str) (b : str) : str :=
  match o with
  | Some a => str_or a b
  | None => b
  end.

Definition colon : Z := 58.
Definition comma : Z := 44.
Definition nl : str := [10].
Definition sp : str := [32].

End PyStr.

Import PyStr.

(** ** Floats *)

Module PyFloat.

(** The exact value of a finite float as [m * 2^e]. *)
Definition to_scaled (x : float) : option (Z * Z) :=
  match Prim2SF x with
  | S754_zero _ => Some (0, 0)
  | S754_finite s m e => Some (if s then Z.neg m else Z.pos m, e)
  | _ => None
  end.

(** The float of an integer below [2^53] in magnitude (exact). *)
Definition of_small_Z (n : Z) : float :=
  let a := PrimFloat.of_uint63 (Uint63.of_Z (Z.abs n)) in
  if n <? 0 then PrimFloat.opp a else a.

(** C's [fmod]: the remainder of the truncated quotient, which is
    always representable and has the sign of [x]. *)
Definition fmod (x y : float) : float :=
  match to_scaled x, to_scaled y with
  | Some (mx, ex), Some (my, ey) =>
      if my =? 0 then PrimFloat.nan
      else
        let e := Z.min ex ey in
        let r := Z.rem (mx * 2 ^ (ex - e)) (my * 2 ^ (ey - e)) in
        if r =? 0 then PrimFloat.mul x PrimFloat.zero
        else Z.ldexp (of_small_Z r) e
  | Some _, None => if PrimFloat.is_infinity y then x else PrimFloat.nan
  | None, _ => PrimFloat.nan
  end.

(** [x % y] on floats, as CPython's [float_rem]: [None] for the
    [ZeroDivisionError] of a zero [y]; otherwise the result takes the
    sign of [y]. *)
Definition mod_ (x y : float) : option float :=
  if PrimFloat.eqb y PrimFloat.zero then None
  else
    let m := fmod x y in
    Some (if PrimFloat.eqb m PrimFloat.zero
          then (if PrimFloat.ltb y PrimFloat.zero
                then PrimFloat.neg_zero else PrimFloat.zero)
          else if xorb (PrimFloat.ltb y PrimFloat.zero) (PrimFloat.ltb m PrimFloat.zero)
               then PrimFloat.add m y else m).

(** [round(x)]: the nearest integer, ties to the even one; [None] where
    Python raises (not a number, infinite). *)
Definition round (x : float) : option Z :=
  match to_scaled x with
  | Some (m, e) =>
      if 0 <=? e then Some (m * 2 ^ e)
      else
        let d := 2 ^ (- e) in
        let q := m / d in
        let r := m mod d in
        Some (if 2 * r <? d then q
              else if d <? 2 * r then q + 1
              else if Z.even q then q else q + 1)
  | None => None
  end.

End PyFloat.

(** ** Colours *)

(** [hsl_to_rgb_int], the function nested in [make_embed]. *)
Definition hsl_to_rgb_int (h s l : float) : option Z :=
  let c := ((1 - PrimFloat.abs (2 * l - 1)) * s)%float in
  let hp := (h / 60)%float in
  hp_mod_2 ← PyFloat.mod_ hp 2;
  let x := (c * (1 - PrimFloat.abs (hp_mod_2 - 1)))%float in
  let '(r1, g1, b1) :=
    if PrimFloat.leb 0 hp && PrimFloat.ltb hp 1 then (c, x, 0%float)
    else if PrimFloat.leb 1 hp && PrimFloat.ltb hp 2 then (x, c, 0%float)
    else if PrimFloat.leb 2 hp && PrimFloat.ltb hp 3 then (0%float, c, x)
    else if PrimFloat.leb 3 hp && PrimFloat.ltb hp 4 then (0%float, x, c)
    else if PrimFloat.leb 4 hp && PrimFloat.ltb hp 5 then (x, 0%float, c)
    else (c, 0%float, x) in
  let m := (l - c / 2)%float in
  match PyFloat.round ((r1 + m) * 255)%float,
        PyFloat.round ((g1 + m) * 255)%float,
        PyFloat.round ((b1 + m) * 255)%float with
  | Some r, Some g, Some b => Some (Z.shiftl r 16 + Z.shiftl g 8 + b)
  | _, _, _ => None
  end.

(** The conversion as the specification words it: chroma, hue segment,
    secondary component, the six cases, the lightness offset, rounded
    channels, packed with bitwise or. *)
Definition hsl_to_rgb_documented (h s l : float) : option Z :=
  let c := ((1 - PrimFloat.abs (2 * l - 1)) * s)%float in
  let hp := (h / 60)%float in
  hp_mod_2 ← PyFloat.mod_ hp 2;
  let x := (c * (1 - PrimFloat.abs (hp_mod_2 - 1)))%float in
  let segment (lo hi : float) := PrimFloat.leb lo hp && PrimFloat.ltb hp hi in
  let '(r1, g1, b1) :=
    if segment 0%float 1%float then (c, x, 0%float)
    else if segment 1%float 2%float then (x, c, 0%float)
    else if segment 2%float 3%float then (0%float, c, x)
    else if segment 3%float 4%float then (0%float, x, c)
    else if segment 4%float 5%float then (x, 0%float, c)
    else (c, 0%float, x) in
  let m := (l - c / 2)%float in
  let channel (v : float) := PyFloat.round ((v + m) * 255)%float in
  r ← channel r1; g ← channel g1; b ← channel b1;
  Some (Z.lor (Z.lor (Z.shiftl r 16) (Z.shiftl g 8)) b).

(** ** Constants of the module *)

Definition DEFAULT_SAB_ICON : str := lit "https://github.com/sabnzbd.png".
Definition DEFAULT_USERNAME : str := lit "SABnzbd".
Definition DEFAULT_AVATAR : option str := Some (lit "https://github.com/sabnzbd.png").
Definition DEFAULT_DEBUG : bool := false.

(** The glyphs, as the code points of the source's literals. *)
Module Glyph.
Definition inbox : str := [0x1F4E5].
Definition check : str := [0x2705].
Definition cross : str := [0x274C].
Definition stop : str := [0x1F6D1].
Definition warning : str := [0x26A0; 0xFE0F].
Definition info : str := [0x2139; 0xFE0F].
Definition pause : str := [0x23F8; 0xFE0F].
Definition wrench : str := [0x1F527].
Definition collision : str := [0x1F4A5].
Definition orange_circle : str := [0x1F7E0].
Definition green_circle : str := [0x1F7E2].
Definition red_circle : str := [0x1F534].
Definition yellow_circle : str := [0x1F7E1].
Definition blue_circle : str := [0x1F535].
Definition small_square : str := [0x25AB; 0xFE0F].
End Glyph.

(** A presentation: human label, emoji, colour. *)
Definition presentation : Type := str * str * Z.

(** [EVENT_MAP]: SABnzbd event types to their presentation. *)
Definition EVENT_MAP : gmap str presentation :=
  list_to_map
    [ (lit "download", (lit "Added NZB", Glyph.inbox, 0xF39C12));
      (lit "complete", (lit "Job finished", Glyph.check, 0x2ECC71));
      (lit "failed", (lit "Job failed", Glyph.cross, 0xE74C3C));
      (lit "error", (lit "Error", Glyph.stop, 0xE74C3C));
      (lit "warning", (lit "Warning", Glyph.warning, 0xF1C40F));
      (lit "queue_done", (lit "Queue finished", Glyph.info, 0x3498DB));
      (lit "startup", (lit "Startup/Shutdown", Glyph.info, 0x3498DB));
      (lit "pause_resume", (lit "Pause/Resume", Glyph.pause, 0x3498DB));
      (lit "pp", (lit "Post-processing started", Glyph.wrench, 0x3498DB));
      (lit "disk_full", (lit "Disk full", Glyph.collision, 0xF1C40F));
      (lit "other", (lit "Other", Glyph.info, 0x3498DB)) ].

(** ** URL arguments *)

Definition split_urls (url_args : list str) : list str :=
  flat_map (fun u => List.filter truthy (map strip (split comma u))) url_args.

(** ** Field extraction *)

(** The keys a [key: value] line may carry. *)
Definition field_keys : list str :=
  [lit "category"; lit "download status"; lit "status"].

Definition is_field_key (k0 : str) : bool := bool_decide (k0 ∈ field_keys).

(** One turn of the loop of [extract_fields_from_message], on the pair
    of [fields] and [keep_lines]. *)
Definition extract_step (st : gmap str str * list str) (line : str)
  : gmap str str * list str :=
  let '(fields, keep_lines) := st in
  match split_once colon line with
  | Some (k, v) =>
      let k0 := lower (strip k) in
      let v0 := strip v in
      if is_field_key k0 then (<[k0 := v0]> fields, keep_lines)
      else (fields, keep_lines ++ [line])
  | None => (fields, keep_lines ++ [line])
  end.

Definition extract_fields_from_message (msg : str) : str * gmap str str :=
  let lines := splitlines msg in
  let '(fields, keep_lines) := fold_left extract_step lines (∅, []) in
  let cleaned := strip (join nl keep_lines) in
  (cleaned, fields).

(** ** The category glyph *)

Definition color_emoji_for_color (color : Z) : str :=
  if (color =? 0xF39C12) || ((0xF00000 <=? color) && (color <=? 0xFFFF00))
  then Glyph.orange_circle
  else if (color =? 0x2ECC71) || ((0x00FF00 <=? color) && (color <=? 0x33FF33))
  then Glyph.green_circle
  else if (color =? 0xE74C3C) || ((0xFF0000 <=? color) && (color <=? 0xFF5555))
  then Glyph.red_circle
  else if color =? 0xF1C40F then Glyph.yellow_circle
  else if color =? 0x3498DB then Glyph.blue_circle
  else Glyph.small_square.

(** ** The embed *)

Record field : Type := Field {
  field_name : str;
  field_value : str;
  field_inline : bool
}.

(** The dictionary [make_embed] builds; the key [thumbnail] is the only
    one that may be absent. *)
Record embed : Type := Embed {
  embed_title : str;
  embed_description : str;
  embed_color : Z;
  embed_timestamp : str;
  embed_author_name : str;
  embed_author_icon_url : str;
  embed_fields : list field;
  embed_footer_text : str;
  embed_thumbnail : option str
}.

(** [embed["thumbnail"] = {"url": url}]. *)
Definition set_thumbnail (e : embed) (url : str) : embed :=
  {| embed_title := embed_title e;
     embed_description := embed_description e;
     embed_color := embed_color e;
     embed_timestamp := embed_timestamp e;
     embed_author_name := embed_author_name e;
     embed_author_icon_url := embed_author_icon_url e;
     embed_fields := embed_fields e;
     embed_footer_text := embed_footer_text e;
     embed_thumbnail := Some url |}.

(** [EVENT_MAP.get(ntype, (ntype.capitalize(), info, blue))]. *)
Definition map_entry (str_capitalize : str -> str) (ntype : str) : presentation :=
  default (str_capitalize ntype, Glyph.info, 0x3498DB) (EVENT_MAP !! ntype).

(** [parsed_fields.get("category") or ntype]. *)
Definition resolve_category (parsed_fields : gmap str str) (ntype : str) : str :=
  get_or (parsed_fields !! lit "category") ntype.

(** [parsed_fields.get("download status") or parsed_fields.get("status") or ntype]. *)
Definition resolve_download_status (parsed_fields : gmap str str) (ntype : str) : str :=
  get_or (parsed_fields !! lit "download status")
         (get_or (parsed_fields !! lit "status") ntype).

(** [make_embed]; [str_capitalize] is Python's [str.capitalize], which
    reads the case tables of Unicode, and [now] is what
    [datetime.datetime.utcnow().isoformat()] returns at the call.  The
    result is [None] where the source raises. *)
Definition make_embed (str_capitalize : str -> str) (now : str)
    (ntype title body : str) (urls : list str) : option embed :=
  let '(label, emoji, color) := map_entry str_capitalize ntype in
  let '(description, parsed_fields) := extract_fields_from_message body in
  let category := resolve_category parsed_fields ntype in
  let download_status := resolve_download_status parsed_fields ntype in
  let circle := color_emoji_for_color color in
  let title_text := lit "SABnzbd: " ++ emoji ++ sp ++ label in
  let category_value := circle ++ sp ++ category in
  let download_status_value := emoji ++ sp ++ download_status in
  hsla_color_int ← hsl_to_rgb_int 37 1 0.5;
  let final_color := if color =? 0 then hsla_color_int else color in
  let embed :=
    {| embed_title := title_text;
       embed_description := str_or description title;
       embed_color := final_color;
       embed_timestamp := now;
       embed_author_name := lit "SABnzbd";
       embed_author_icon_url := DEFAULT_SAB_ICON;
       embed_fields :=
         [ Field (lit "Category") category_value true;
           Field (lit "Download Status") download_status_value true ];
       embed_footer_text := lit "SABnzbd Notification";
       embed_thumbnail := None |} in
  Some match urls with
       | u :: _ => set_thumbnail embed u
       | [] => embed
       end.

(** ** Delivery *)

(** Values of the payload dictionary. *)
Inductive payload_value : Type :=
  | PEmbeds (es : list embed)
  | PString (s : str).

(** Truth value of an [Optional[str]]. *)
Definition opt_truthy (o : option str) : bool :=
  match o with Some s => truthy s | None => false end.

(** [masked_len]: what is printed in place of a secret. *)
Inductive masked : Type := NotSet | LengthOf (n : nat).

Definition masked_len (s : option str) : masked :=
  match s with
  | Some ((_ :: _) as s') => LengthOf (length s')
  | _ => NotSet
  end.

Record request : Type := Request {
  req_url : str;
  req_data : gmap str payload_value;
  req_headers : list (str * str);
  req_timeout : Z
}.

(** What [urllib] does with a request.  The constructor
    [urllib.request.Request] raises on a URL without a scheme, and the
    source calls it before its [try]; [urllib.request.urlopen], inside
    the [try], returns a response with a status code, raises [HTTPError]
    (whose body may or may not be readable), or raises anything else. *)
Inductive http_result : Type :=
  | RequestRaised
  | Responded (code : Z)
  | RaisedHTTPError (code : Z) (reason : str) (body : option str)
  | RaisedOther (description : str).

(** The lines the script prints, one constructor per [print] of the
    source, and the one network call. *)
Inductive event : Type :=
  | OutDebugPayloadHeader
  | OutPayload (payload : gmap str payload_value)
  | ErrNoticeBuiltin (m : masked)
  | ErrDebugInfo
  | ErrNoWebhook
  | ErrNotEnoughArguments
  | ErrNoticeReceived (ntype : str)
  | ErrNoticeSending (m : masked)
  | ErrNoticeSucceeded (code : Z)
  | ErrResponded (code : Z)
  | ErrHTTPError (code : Z) (reason : str)
  | ErrBody (body : str)
  | ErrHint403
  | ErrSending (description : str)
  | UrlOpen (req : request).

Definition is_network_call (e : event) : bool :=
  match e with UrlOpen _ => true | _ => false end.

Definition network_calls (trace : list event) : nat :=
  length (List.filter is_network_call trace).

Definition headers : list (str * str) :=
  [ (lit "Content-Type", lit "application/json");
    (lit "User-Agent",
     lit "Mozilla/5.0 (X11; Linux x86_64) AppleWebKit/537.36 (KHTML, like Gecko)");
    (lit "Accept", lit "application/json") ].

(** The first lines of [send_webhook]: the payload dictionary. *)
Definition build_payload (username avatar_url : option str) (e : embed)
  : gmap str payload_value :=
  let payload : gmap str payload_value := {[ lit "embeds" := PEmbeds [e] ]} in
  let payload :=
    match username with
    | Some u => if truthy u then <[lit "username" := PString u]> payload else payload
    | None => payload
    end in
  match avatar_url with
  | Some a => if truthy a then <[lit "avatar_url" := PString a]> payload else payload
  | None => payload
  end.

Section Run.

(** The transport and the clock are the environment's, and so are the
    working directory ([os.getcwd()], [None] when it raises, as it does
    when the directory has been removed) and Python's [str.lower] and
    [str.capitalize], which read the case tables of Unicode. *)
Variable urllib : request -> http_result.
Variable now : str.
Variable getcwd : option str.
Variable str_lower : str -> str.
Variable str_capitalize : str -> str.

(** [send_webhook]; [None] where the source raises. *)
Definition send_webhook (webhook_url : str) (username avatar_url : option str)
    (e : embed) (debug : bool) : option (bool * list event) :=
  let payload := build_payload username avatar_url e in
  if debug then Some (true, [OutDebugPayloadHeader; OutPayload payload])
  else
    let req := Request webhook_url payload headers 10 in
    let sent := [ErrNoticeSending (masked_len (Some webhook_url)); UrlOpen req] in
    match urllib req with
    | RequestRaised => None
    | Responded code =>
        if (200 <=? code) && (code <? 300)
        then Some (true, sent ++ [ErrNoticeSucceeded code])
        else Some (false, sent ++ [ErrResponded code])
    | RaisedHTTPError code reason body =>
        Some (false,
              sent ++ [ErrHTTPError code reason]
                   ++ (match body with
                       | Some b => if truthy b then [ErrBody b] else []
                       | None => []
                       end)
                   ++ (if code =? 403 then [ErrHint403] else []))
    | RaisedOther description => Some (false, sent ++ [ErrSending description])
    end.

(** [main]; [DEFAULT_WEBHOOK] is the constant the operator sets in the
    file.  The result is the exit status and what was printed and sent,
    [None] where the source raises: the line of debug information
    evaluates [os.getcwd()] outside any [try], before the webhook is
    tested.  The warning about line endings, which looks at the script
    file alone, is left out, and so is the text of the line of debug
    information; writing to the standard streams is taken to succeed. *)
Definition main (DEFAULT_WEBHOOK : str) (argv : list str) : option (Z * list event) :=
  let log :=
    if truthy DEFAULT_WEBHOOK
    then [ErrNoticeBuiltin (masked_len (Some DEFAULT_WEBHOOK))] else [] in
  let final_webhook := DEFAULT_WEBHOOK in
  cwd ← getcwd;
  let log := log ++ [ErrDebugInfo] in
  if negb (truthy final_webhook) then Some (2, log ++ [ErrNoWebhook])
  else if (length argv <? 3)%nat then Some (1, log ++ [ErrNotEnoughArguments])
  else
    match argv with
    | a0 :: title :: message :: rest =>
        let ntype := str_lower (strip a0) in
        let urls :=
          flat_map (fun u => List.filter truthy (map strip (split comma u))) rest in
        let log := log ++ [ErrNoticeReceived ntype] in
        e ← make_embed str_capitalize now ntype title message urls;
        let debug_flag := DEFAULT_DEBUG in
        match send_webhook final_webhook (Some DEFAULT_USERNAME)
                DEFAULT_AVATAR e debug_flag with
        | Some (ok, trace) => Some (if ok then 0 else 1, log ++ trace)
        | None => None
        end
    | _ => None
    end.

End Run.

(** ** Notions the statements use *)

(** The status [send_webhook] would report for what the transport did. *)
Definition delivered (r : http_result) : bool :=
  match r with
  | Responded code => (200 <=? code) && (code <? 300)
  | _ => false
  end.

(** The request [send_webhook] makes. *)
Definition request_of (webhook_url : str) (username avatar_url : option str)
    (e : embed) : request :=
  Request webhook_url (build_payload username avatar_url e) headers 10.

(** The line carries the field [k0] with value [v0]: the text before its
    first colon, trimmed and lower-cased, is [k0], one of the three keys,
    and the text after that colon, trimmed, is [v0]. *)
Definition field_line (line k0 v0 : str) : Prop :=
  exists k v,
    line = k ++ (colon :: v) /\ (colon ∉ k)
    /\ k0 = lower (strip k) /\ k0 ∈ field_keys /\ v0 = strip v.

(** The test the loop makes on a line. *)
Definition is_field_line (line : str) : bool :=
  match split_once colon line with
  | Some (k, _) => is_field_key (lower (strip k))
  | None => false
  end.

(** The last line of [lines] that carries [k0] carries it with [v0]. *)
Definition last_field (lines : list str) (k0 v0 : str) : Prop :=
  exists before line after,
    lines = before ++ line :: after
    /\ field_line line k0 v0
    /\ forall l v', l ∈ after -> ~ field_line l k0 v'.

(** Every character of the text is white space. *)
Definition all_space (s : str) : bool := forallb isspace s.

(** [lstrip] seen on the lines of a text joined by line feeds: the
    leading blank lines go and the first other line is left-trimmed. *)
Fixpoint lstrip_lines (ls : list str) : list str :=
  match ls with
  | [] => []
  | l :: ls' => if all_space l then lstrip_lines ls' else lstrip l :: ls'
  end.

(** The lines of the reversed text. *)
Definition revlines (ls : list str) : list str := rev (map (@rev Z) ls).

(** The line holds no line boundary. *)
Definition one_line (l : str) : Prop := Forall (fun c => islinebreak c = false) l.

(** * Further functions and notions *)

(** ** The warning about line endings *)

(** [b"\r\n" in head] on a sequence of bytes. *)
Fixpoint has_crlf (bytes : list Z) : bool :=
  match bytes with
  | [] => false
  | c :: r =>
      match r with
      | c' :: _ => ((c =? 13) && (c' =? 10)) || has_crlf r
      | [] => false
      end
  end.

(** [maybe_warn_line_endings]; [script] is the content of the script
    file, [None] when opening or reading it raises.  The result tells
    whether the warning is printed. *)
Definition maybe_warn_line_endings (script : option (list Z)) : bool :=
  match script with
  | Some bytes =>
      let head := take 4096 bytes in
      has_crlf head
  | None => false
  end.

(** ** The channels of the colour conversion *)

(** The three rounded channels of [hsl_to_rgb_int], before it packs them. *)
Definition hsl_channels (h s l : float) : option (Z * Z * Z) :=
  let c := ((1 - PrimFloat.abs (2 * l - 1)) * s)%float in
  let hp := (h / 60)%float in
  hp_mod_2 ← PyFloat.mod_ hp 2;
  let x := (c * (1 - PrimFloat.abs (hp_mod_2 - 1)))%float in
  let '(r1, g1, b1) :=
    if PrimFloat.leb 0 hp && PrimFloat.ltb hp 1 then (c, x, 0%float)
    else if PrimFloat.leb 1 hp && PrimFloat.ltb hp 2 then (x, c, 0%float)
    else if PrimFloat.leb 2 hp && PrimFloat.ltb hp 3 then (0%float, c, x)
    else if PrimFloat.leb 3 hp && PrimFloat.ltb hp 4 then (0%float, x, c)
    else if PrimFloat.leb 4 hp && PrimFloat.ltb hp 5 then (x, 0%float, c)
    else (c, 0%float, x) in
  let m := (l - c / 2)%float in
  match PyFloat.round ((r1 + m) * 255)%float,
        PyFloat.round ((g1 + m) * 255)%float,
        PyFloat.round ((b1 + m) * 255)%float with
  | Some r, Some g, Some b => Some (r, g, b)
  | _, _, _ => None
  end.

(** The channels are bytes. *)
Definition byte_channels (rgb : Z * Z * Z) : bool :=
  let '(r, g, b) := rgb in
  (0 <=? r) && (r <=? 255) && (0 <=? g) && (g <=? 255) && (0 <=? b) && (b <=? 255).

(** The check of one hue, saturation and lightness given in whole
    degrees and quarters: the conversion returns byte channels. *)
Definition hsl_in_gamut (h s4 l4 : Z) : bool :=
  match hsl_channels (PyFloat.of_small_Z h)
          (PyFloat.of_small_Z s4 / 4)%float (PyFloat.of_small_Z l4 / 4)%float with
  | Some rgb => byte_channels rgb
  | None => false
  end.

(** The check of one fully saturated hue at half lightness: the largest
    channel is 255 and the smallest is 0. *)
Definition pure_hue (h : Z) : bool :=
  match hsl_channels (PyFloat.of_small_Z h) 1 0.5 with
  | Some (r, g, b) =>
      byte_channels (r, g, b)
      && (Z.max r (Z.max g b) =? 255) && (Z.min r (Z.min g b) =? 0)
  | None => false
  end.

(** ** Notions of the further statements *)

(** A URL as [split_urls] hands it on: not empty, trimmed, without comma. *)
Definition clean_url (u : str) : Prop := u <> [] /\ strip u = u /\ comma ∉ u.

(** The URLs of one argument. *)
Definition url_parts (u : str) : list str :=
  List.filter truthy (map strip (split comma u)).

(** The accent colours of [EVENT_MAP] and of the fallback presentation. *)
Definition accent_colors : list Z :=
  [0xF39C12; 0x2ECC71; 0xE74C3C; 0xF1C40F; 0x3498DB].

(** * Properties *)

(** ** The embedding on sample inputs *)

Example splitlines_ex1 :
  splitlines (lit "a" ++ [13; 10] ++ lit "b" ++ [10] ++ [10] ++ lit "c" ++ [10])
  = [lit "a"; lit "b"; []; lit "c"].
Proof. reflexivity. Qed.

Example splitlines_ex2 : splitlines [10] = [[]] /\ splitlines [] = [] /\ splitlines [13;13;10;10] = [[];[];[]].
Proof. repeat split; reflexivity. Qed.

Example strip_ex : strip (lit "  Movies 4K  ") = lit "Movies 4K".
Proof. reflexivity. Qed.

Example split_ex : split comma (lit "a,,b,") = [lit "a"; []; lit "b"; []].
Proof. reflexivity. Qed.

Example round_ex :
  PyFloat.round 2.5%float = Some 2 /\ PyFloat.round 3.5%float = Some 4 /\
  PyFloat.round (-2.5)%float = Some (-2) /\ PyFloat.round (-0.25)%float = Some 0 /\
  PyFloat.round 157.25%float = Some 157 /\ PyFloat.round PrimFloat.nan = None.
Proof. vm_compute. repeat split; reflexivity. Qed.

Example mod_ex :
  PyFloat.mod_ 5.5%float 2%float = Some 1.5%float /\
  PyFloat.mod_ (-0.5)%float 2%float = Some 1.5%float /\
  PyFloat.mod_ 5.5%float (-2)%float = Some (-0.5)%float /\
  PyFloat.mod_ 4%float 2%float = Some 0%float /\
  PyFloat.mod_ 4%float 0%float = None.
Proof. vm_compute. repeat split; reflexivity. Qed.

Example hsl_red : hsl_to_rgb_int 0 1 0.5 = Some 0xFF0000.
Proof. vm_compute. reflexivity. Qed.

Example extract_ex :
  extract_fields_from_message
    (lit "Category: Movies" ++ nl ++ lit "Download Status: Extracting" ++ nl
     ++ lit "All good")
  = (lit "All good",
     {[ lit "category" := lit "Movies"; lit "download status" := lit "Extracting" ]}).
Proof. vm_compute. reflexivity. Qed.

Example extract_last_wins :
  (extract_fields_from_message
     (lit "status: a" ++ nl ++ lit "x: y" ++ nl ++ lit " STATUS : b:c ")).2
  !! lit "status" = Some (lit "b:c").
Proof. vm_compute. reflexivity. Qed.

Example glyph_ex :
  color_emoji_for_color 0xF39C12 = Glyph.orange_circle
  /\ color_emoji_for_color 0x2ECC71 = Glyph.green_circle
  /\ color_emoji_for_color 0xE74C3C = Glyph.red_circle
  /\ color_emoji_for_color 0x3498DB = Glyph.blue_circle
  /\ color_emoji_for_color 0 = Glyph.small_square.
Proof. repeat split; reflexivity. Qed.

(** ** A tactic for comparisons of integers *)

Ltac case_cmp :=
  repeat (match goal with
          | |- context [ (?a <=? ?b) ] => destruct (Z.leb_spec a b)
          | |- context [ (?a =? ?b) ] => destruct (Z.eqb_spec a b)
          end; try (exfalso; lia); cbn [andb orb]);
  try reflexivity; try discriminate; try lia.

(** ** The colour conversion *)

Lemma hsla_color_int_value : hsl_to_rgb_int 37 1 0.5 = Some 0xFF9D00.
Proof. vm_compute. reflexivity. Qed.

(** C6: on hue 37, saturation 1.0 and lightness 0.5 the conversion of the
    source returns one fixed integer, [0xFF9D00], which is also the value
    of the documented formula with its bitwise-or packing. *)
Theorem hsl_to_rgb_int_reference :
  hsl_to_rgb_int 37 1 0.5 = hsl_to_rgb_documented 37 1 0.5
  /\ hsl_to_rgb_int 37 1 0.5 = Some 0xFF9D00.
Proof. split; vm_compute; reflexivity. Qed.

(** ** The category glyph *)

Lemma color_emoji_never_yellow (color : Z) :
  color_emoji_for_color color <> Glyph.yellow_circle.
Proof. unfold color_emoji_for_color. case_cmp. Qed.

(** ** The embed, field by field *)

(** [make_embed] never raises, and this is the dictionary it returns. *)
Lemma make_embed_fields (str_capitalize : str -> str) (now ntype title body : str) (urls : list str) :
  exists e,
    make_embed str_capitalize now ntype title body urls = Some e
    /\ embed_title e
       = lit "SABnzbd: " ++ (map_entry str_capitalize ntype).1.2 ++ sp ++ (map_entry str_capitalize ntype).1.1
    /\ embed_description e
       = str_or (extract_fields_from_message body).1 title
    /\ embed_color e
       = (if (map_entry str_capitalize ntype).2 =? 0 then 0xFF9D00 else (map_entry str_capitalize ntype).2)
    /\ embed_timestamp e = now
    /\ embed_fields e
       = [ Field (lit "Category")
             (color_emoji_for_color (map_entry str_capitalize ntype).2 ++ sp
              ++ resolve_category (extract_fields_from_message body).2 ntype) true;
           Field (lit "Download Status")
             ((map_entry str_capitalize ntype).1.2 ++ sp
              ++ resolve_download_status (extract_fields_from_message body).2 ntype) true ]
    /\ embed_thumbnail e = head urls.
Proof.
  unfold make_embed.
  destruct (map_entry str_capitalize ntype) as [[label emoji] color].
  destruct (extract_fields_from_message body) as [description parsed_fields].
  rewrite hsla_color_int_value. cbn [mbind option_bind].
  destruct urls as [|u urls]; eexists; (split; [reflexivity|]); cbn; repeat split; reflexivity.
Qed.

(** C1 (the code departs from it): for the yellow accent colour
    [0xF1C40F] of the kinds [warning] and [disk_full] the range test of
    the first branch wins over the later exact match, so the glyph is the
    orange circle and the Category value of such an event starts with it;
    no colour at all gets the yellow circle. *)
Theorem yellow_accent_gets_orange_circle (str_capitalize : str -> str) :
  map_entry str_capitalize (lit "warning") = (lit "Warning", Glyph.warning, 0xF1C40F)
  /\ map_entry str_capitalize (lit "disk_full") = (lit "Disk full", Glyph.collision, 0xF1C40F)
  /\ color_emoji_for_color 0xF1C40F = Glyph.orange_circle
  /\ Glyph.orange_circle <> Glyph.yellow_circle
  /\ (forall color, color_emoji_for_color color <> Glyph.yellow_circle)
  /\ forall now title body urls,
       exists e category,
         make_embed str_capitalize now (lit "warning") title body urls = Some e
         /\ embed_fields e !! 0%nat
            = Some (Field (lit "Category") (Glyph.orange_circle ++ sp ++ category) true).
Proof.
  assert (Hw : map_entry str_capitalize (lit "warning") = (lit "Warning", Glyph.warning, 0xF1C40F))
    by (vm_compute; reflexivity).
  split; [exact Hw|].
  split; [vm_compute; reflexivity|].
  split; [reflexivity|].
  split; [discriminate|].
  split; [apply color_emoji_never_yellow|].
  intros now title body urls.
  destruct (make_embed_fields str_capitalize now (lit "warning") title body urls)
    as (e & He & _ & _ & _ & _ & Hf & _).
  exists e. eexists. split; [exact He|].
  rewrite Hf, Hw. reflexivity.
Qed.

(** C9: the embed has a thumbnail exactly when [urls] is not empty, and
    the thumbnail is then the first URL, whatever follows it. *)
Theorem thumbnail_is_first_url (str_capitalize : str -> str) (now ntype title body : str) (urls : list str) :
  exists e,
    make_embed str_capitalize now ntype title body urls = Some e
    /\ (is_Some (embed_thumbnail e) <-> urls <> [])
    /\ embed_thumbnail e = head urls
    /\ forall u rest, urls = u :: rest -> embed_thumbnail e = Some u.
Proof.
  destruct (make_embed_fields str_capitalize now ntype title body urls)
    as (e & He & _ & _ & _ & _ & _ & Hth).
  exists e. split; [exact He|]. rewrite Hth.
  destruct urls as [|u0 urls]; cbn.
  - split; [|split; [reflexivity | intros u rest Hu; discriminate]].
    split; [intros [x Hx]; discriminate | intros Hne; congruence].
  - split; [|split; [reflexivity | intros u rest Hu; congruence]].
    split; [intros _; discriminate | intros _; eauto].
Qed.

Lemma str_or_nil (a b : str) : str_or a b = [] <-> a = [] /\ b = [].
Proof.
  unfold str_or. destruct a as [|c a]; cbn.
  - split; [intros ->; auto | intros [_ ->]; reflexivity].
  - split; [discriminate | intros [H _]; discriminate].
Qed.

(** C5 (as amended): the description is the cleaned description when
    that is not empty and the [title] argument otherwise; it is empty
    only when both of them are. *)
Theorem description_falls_back_to_title (str_capitalize : str -> str) (now ntype title body : str) (urls : list str) :
  exists e,
    make_embed str_capitalize now ntype title body urls = Some e
    /\ embed_description e
       = (if bool_decide ((extract_fields_from_message body).1 = [])
          then title else (extract_fields_from_message body).1)
    /\ (embed_description e = []
        <-> (extract_fields_from_message body).1 = [] /\ title = []).
Proof.
  destruct (make_embed_fields str_capitalize now ntype title body urls)
    as (e & He & _ & Hd & _).
  exists e. split; [exact He|]. rewrite Hd. split.
  - unfold str_or. destruct (extract_fields_from_message body).1; reflexivity.
  - apply str_or_nil.
Qed.

(** C5, as the claim words it, fails: with an empty title and an empty
    message the description is the empty string. *)
Lemma empty_title_gives_empty_description :
  embed_description <$> make_embed capitalize (lit "2026-01-01T00:00:00") (lit "complete") [] [] []
  = Some [].
Proof. vm_compute. reflexivity. Qed.

(** C3 (as amended): the category is the extracted [category] value when
    the key is present with a non-empty value, else the raw event kind;
    the download status is the extracted [download status] value when
    present and non-empty, else the [status] value when present and
    non-empty, else the raw event kind. *)
Theorem resolved_fields_skip_empty_values (str_capitalize : str -> str) (now ntype title body : str) (urls : list str) :
  let fields := (extract_fields_from_message body).2 in
  let nonempty (k : str) : option str :=
    match fields !! k with
    | Some (c :: v) => Some (c :: v)
    | _ => None
    end in
  let category := default ntype (nonempty (lit "category")) in
  let download_status :=
    default (default ntype (nonempty (lit "status"))) (nonempty (lit "download status")) in
  resolve_category fields ntype = category
  /\ resolve_download_status fields ntype = download_status
  /\ exists e,
      make_embed str_capitalize now ntype title body urls = Some e
      /\ embed_fields e
         = [ Field (lit "Category")
               (color_emoji_for_color (map_entry str_capitalize ntype).2 ++ sp ++ category) true;
             Field (lit "Download Status")
               ((map_entry str_capitalize ntype).1.2 ++ sp ++ download_status) true ].
Proof.
  intros fields nonempty category download_status.
  assert (Hc : resolve_category fields ntype = category).
  { unfold resolve_category, category, nonempty, get_or, str_or.
    destruct (fields !! lit "category") as [[|c v]|]; reflexivity. }
  assert (Hs : resolve_download_status fields ntype = download_status).
  { unfold resolve_download_status, download_status, nonempty, get_or, str_or.
    destruct (fields !! lit "download status") as [[|c v]|];
      destruct (fields !! lit "status") as [[|c' v']|]; reflexivity. }
  split; [exact Hc|]. split; [exact Hs|].
  destruct (make_embed_fields str_capitalize now ntype title body urls)
    as (e & He & _ & _ & _ & _ & Hf & _).
  exists e. split; [exact He|].
  rewrite Hf. fold fields. rewrite Hc, Hs. reflexivity.
Qed.

(** C3, as the claim words it, fails: the line [Category:] puts the key
    [category] in the field map with the empty string as its value, and
    the resolved category is the raw event kind, not that value. *)
Lemma empty_category_value_is_skipped :
  (extract_fields_from_message (lit "Category:")).2 !! lit "category" = Some []
  /\ resolve_category (extract_fields_from_message (lit "Category:")).2 (lit "complete")
     = lit "complete"
  /\ embed_fields <$> make_embed capitalize (lit "2026-01-01T00:00:00") (lit "complete")
                        (lit "T") (lit "Category:") []
     = Some [ Field (lit "Category") (Glyph.green_circle ++ sp ++ lit "complete") true;
              Field (lit "Download Status") (Glyph.check ++ sp ++ lit "complete") true ].
Proof. vm_compute. repeat split; reflexivity. Qed.

(** ** Delivery *)

Lemma payload_keys_distinct :
  lit "embeds" <> lit "username" /\ lit "embeds" <> lit "avatar_url"
  /\ lit "username" <> lit "avatar_url".
Proof. repeat split; discriminate. Qed.

Lemma build_payload_lookup (username avatar_url : option str) (e : embed) :
  build_payload username avatar_url e !! lit "embeds" = Some (PEmbeds [e])
  /\ build_payload username avatar_url e !! lit "username"
     = (if opt_truthy username then PString <$> username else None)
  /\ build_payload username avatar_url e !! lit "avatar_url"
     = (if opt_truthy avatar_url then PString <$> avatar_url else None)
  /\ forall k, is_Some (build_payload username avatar_url e !! k) ->
               k ∈ [lit "embeds"; lit "username"; lit "avatar_url"].
Proof.
  destruct payload_keys_distinct as (H1 & H2 & H3).
  unfold build_payload.
  destruct username as [[|c u]|], avatar_url as [[|c' a]|];
    cbn [opt_truthy truthy fmap option_fmap option_map];
    (split; [|split; [|split]]);
    try (intros k Hk;
         repeat (apply lookup_insert_is_Some in Hk;
                 destruct Hk as [<-|[_ Hk]]; [set_solver|]);
         apply lookup_singleton_is_Some in Hk; subst k; set_solver);
    repeat first [ rewrite lookup_insert_eq
                 | rewrite lookup_insert_ne by congruence
                 | rewrite lookup_singleton_eq
                 | rewrite lookup_singleton_ne by congruence ];
    reflexivity.
Qed.

(** C10: in debug mode [send_webhook] returns [True] without calling the
    transport; what it prints is the payload, whose key [embeds] holds
    the one-element list of the embed and whose keys [username] and
    [avatar_url] are present exactly for a non-empty argument. *)
Theorem debug_delivery_is_dry_run (urllib : request -> http_result)
    (webhook_url : str) (username avatar_url : option str) (e : embed) :
  let payload := build_payload username avatar_url e in
  let trace := [OutDebugPayloadHeader; OutPayload payload] in
  send_webhook urllib webhook_url username avatar_url e true = Some (true, trace)
  /\ network_calls trace = 0%nat
  /\ payload !! lit "embeds" = Some (PEmbeds [e])
  /\ payload !! lit "username"
     = (if opt_truthy username then PString <$> username else None)
  /\ payload !! lit "avatar_url"
     = (if opt_truthy avatar_url then PString <$> avatar_url else None)
  /\ forall k, is_Some (payload !! k) ->
               k ∈ [lit "embeds"; lit "username"; lit "avatar_url"].
Proof.
  intros payload trace.
  split; [reflexivity|]. split; [reflexivity|].
  apply build_payload_lookup.
Qed.

(** ** The exit status *)

Lemma send_webhook_live (urllib : request -> http_result)
    (webhook_url : str) (username avatar_url : option str) (e : embed) :
  let req := request_of webhook_url username avatar_url e in
  match urllib req with
  | RequestRaised =>
      send_webhook urllib webhook_url username avatar_url e false = None
  | r =>
      exists trace,
        send_webhook urllib webhook_url username avatar_url e false
        = Some (delivered r, trace)
        /\ List.filter is_network_call trace = [UrlOpen req]
  end.
Proof.
  intros req. unfold send_webhook. fold (request_of webhook_url username avatar_url e).
  fold req.
  destruct (urllib req) as [|code|code reason body|description]; cbn [delivered].
  - reflexivity.
  - destruct ((200 <=? code) && (code <? 300)); eexists; split; reflexivity.
  - eexists. split; [reflexivity|].
    destruct body as [[|c b]|]; destruct (code =? 403); reflexivity.
  - eexists. split; reflexivity.
Qed.

(** C4 (as amended): [main] exits with 2 when no webhook is configured,
    with 1 when fewer than three arguments are given, with 0 when the
    one POST it makes is answered with a 2xx status and with 1 for any
    other answer or error of [urlopen]; it makes no request in the first
    two cases, and it raises when the working directory cannot be read
    or the request cannot be built. *)
Theorem exit_status_of_main (urllib : request -> http_result) (now : str)
    (getcwd : option str) (str_lower str_capitalize : str -> str)
    (webhook : str) (argv : list str) :
  let run := main urllib now getcwd str_lower str_capitalize webhook argv in
  match getcwd, webhook, argv with
  | None, _, _ => run = None
  | Some _, [], _ =>
      exists trace, run = Some (2, trace) /\ network_calls trace = 0%nat
  | Some _, _ :: _, ([] | [_] | [_; _]) =>
      exists trace, run = Some (1, trace) /\ network_calls trace = 0%nat
  | Some _, _ :: _, a0 :: title :: message :: rest =>
      exists e,
        make_embed str_capitalize now (str_lower (strip a0)) title message
          (split_urls rest) = Some e
        /\ let req := request_of webhook (Some DEFAULT_USERNAME) DEFAULT_AVATAR e in
           match urllib req with
           | RequestRaised => run = None
           | r =>
               exists trace,
                 run = Some (if delivered r then 0 else 1, trace)
                 /\ List.filter is_network_call trace = [UrlOpen req]
           end
  end.
Proof.
  intros run. subst run.
  destruct getcwd as [cwd|]; [|reflexivity].
  destruct webhook as [|w0 webhook].
  { eexists. split; reflexivity. }
  destruct argv as [|a0 [|title [|message rest]]];
    try (eexists; split; reflexivity).
  destruct (make_embed_fields str_capitalize now (str_lower (strip a0)) title message
              (split_urls rest)) as (e & He & _).
  exists e. split; [exact He|]. intros req.
  pose proof (send_webhook_live urllib (w0 :: webhook) (Some DEFAULT_USERNAME)
                DEFAULT_AVATAR e) as Hlive.
  cbn zeta in Hlive. fold req in Hlive.
  unfold main. cbn [mbind option_bind truthy negb length Nat.ltb Nat.leb].
  fold (split_urls rest). rewrite He. cbn [mbind option_bind]. unfold DEFAULT_DEBUG.
  destruct (urllib req) as [|code|code reason body|description].
  - rewrite Hlive. reflexivity.
  - destruct Hlive as (trace & -> & Htrace). eexists. split; [reflexivity|].
    rewrite List.filter_app. cbn. exact Htrace.
  - destruct Hlive as (trace & -> & Htrace). eexists. split; [reflexivity|].
    rewrite List.filter_app. cbn. exact Htrace.
  - destruct Hlive as (trace & -> & Htrace). eexists. split; [reflexivity|].
    rewrite List.filter_app. cbn. exact Htrace.
Qed.

(** C4, as the claim words it, fails: too few arguments and a failed
    delivery both exit with status 1. *)
Lemma input_error_exits_like_failed_delivery :
  fst <$> main (fun _ => RaisedOther (lit "timed out")) (lit "2026-01-01T00:00:00")
            (Some (lit "/")) lower capitalize
            (lit "https://discord.com/api/webhooks/1/x") [lit "complete"; lit "T"]
  = Some 1
  /\ fst <$> main (fun _ => RaisedOther (lit "timed out")) (lit "2026-01-01T00:00:00")
               (Some (lit "/")) lower capitalize
               (lit "https://discord.com/api/webhooks/1/x")
               [lit "complete"; lit "T"; lit "M"]
     = Some 1
  /\ fst <$> main (fun _ => Responded 500) (lit "2026-01-01T00:00:00")
               (Some (lit "/")) lower capitalize
               (lit "https://discord.com/api/webhooks/1/x")
               [lit "complete"; lit "T"; lit "M"]
     = Some 1.
Proof. vm_compute. repeat split; reflexivity. Qed.

(** ** Stripping and lower-casing *)

Lemma lstrip_app (a b : str) :
  lstrip (a ++ b) = match lstrip a with [] => lstrip b | _ => lstrip a ++ b end.
Proof.
  induction a as [|c a IH]; cbn; [reflexivity|].
  destruct (isspace c); [exact IH | reflexivity].
Qed.

Lemma lstrip_head (s r : str) (c : Z) : lstrip s = c :: r -> isspace c = false.
Proof.
  induction s as [|d s IH]; cbn; [discriminate|].
  destruct (isspace d) eqn:Hd; [exact IH|].
  intros [= <- _]. exact Hd.
Qed.

Lemma lstrip_fixed (s : str) (c : Z) : isspace c = false -> lstrip (c :: s) = c :: s.
Proof. intros H. cbn. rewrite H. reflexivity. Qed.

Lemma lstrip_idem (s : str) : lstrip (lstrip s) = lstrip s.
Proof.
  destruct (lstrip s) as [|c r] eqn:E; [reflexivity|].
  apply lstrip_fixed. eapply lstrip_head, E.
Qed.

Lemma rstrip_cons (c : Z) (r : str) :
  rstrip (c :: r)
  = match rstrip r with
    | [] => if isspace c then [] else [c]
    | _ => c :: rstrip r
    end.
Proof.
  unfold rstrip. cbn [rev]. rewrite lstrip_app.
  destruct (lstrip (rev r)) as [|d t]; cbn [rev].
  - cbn. destruct (isspace c); reflexivity.
  - rewrite rev_app_distr. cbn.
    destruct (rev t ++ [d]) eqn:E; [|reflexivity].
    destruct (rev t); discriminate.
Qed.

Lemma rstrip_app (a b : str) :
  rstrip (a ++ b) = match rstrip b with [] => rstrip a | _ => a ++ rstrip b end.
Proof.
  unfold rstrip. rewrite rev_app_distr, lstrip_app.
  destruct (lstrip (rev b)) as [|d t]; cbn [rev]; [reflexivity|].
  rewrite rev_app_distr, rev_involutive. cbn [rev].
  destruct (rev t ++ [d]) eqn:E; [|reflexivity].
  destruct (rev t); discriminate.
Qed.

Lemma lstrip_rstrip (s : str) : lstrip (rstrip s) = rstrip (lstrip s).
Proof.
  induction s as [|c s IH]; [reflexivity|].
  rewrite rstrip_cons. cbn [lstrip].
  destruct (isspace c) eqn:Hc.
  - rewrite <- IH. destruct (rstrip s) as [|d t]; [reflexivity|].
    cbn [lstrip]. rewrite Hc. reflexivity.
  - rewrite rstrip_cons, Hc.
    destruct (rstrip s) as [|d t]; apply lstrip_fixed, Hc.
Qed.

Lemma rstrip_idem (s : str) : rstrip (rstrip s) = rstrip s.
Proof.
  unfold rstrip. rewrite rev_involutive, lstrip_idem. reflexivity.
Qed.

Lemma strip_idem (s : str) : strip (strip s) = strip s.
Proof.
  unfold strip. rewrite lstrip_rstrip, lstrip_idem. apply rstrip_idem.
Qed.

Lemma strip_lstrip (s : str) : strip (lstrip s) = strip s.
Proof. unfold strip. rewrite lstrip_idem. reflexivity. Qed.

Lemma strip_rstrip (s : str) : strip (rstrip s) = strip s.
Proof. unfold strip. rewrite lstrip_rstrip. apply rstrip_idem. Qed.

Lemma isspace_lower_char (c : Z) : isspace (lower_char c) = isspace c.
Proof.
  unfold lower_char.
  destruct (Z.leb_spec 65 c); cbn [andb]; [|reflexivity].
  destruct (Z.leb_spec c 90); [|reflexivity].
  unfold isspace. case_cmp.
Qed.

Lemma lower_char_idem (c : Z) : lower_char (lower_char c) = lower_char c.
Proof.
  unfold lower_char.
  destruct (Z.leb_spec 65 c), (Z.leb_spec c 90); cbn [andb]; case_cmp.
Qed.

Lemma lstrip_lower (s : str) : lstrip (lower s) = lower (lstrip s).
Proof.
  induction s as [|c s IH]; [reflexivity|].
  cbn. rewrite isspace_lower_char. destruct (isspace c); [exact IH | reflexivity].
Qed.

Lemma rstrip_lower (s : str) : rstrip (lower s) = lower (rstrip s).
Proof.
  unfold rstrip. unfold lower at 1. rewrite <- map_rev.
  fold (lower (rev s)). rewrite lstrip_lower.
  unfold lower. rewrite map_rev. reflexivity.
Qed.

Lemma strip_lower (s : str) : strip (lower s) = lower (strip s).
Proof. unfold strip. rewrite lstrip_lower. apply rstrip_lower. Qed.

Lemma lower_idem (s : str) : lower (lower s) = lower s.
Proof.
  unfold lower. rewrite map_map. apply map_ext. intros c. apply lower_char_idem.
Qed.

Lemma normalize_idem (s : str) : lower (strip (lower (strip s))) = lower (strip s).
Proof. rewrite strip_lower, strip_idem. apply lower_idem. Qed.

(** ** Normalization of the event kind *)

(** C2 (as amended): [main] trims and lower-cases its first argument
    before it calls [make_embed], so what it delivers is the embed of the
    normalized kind, and a first argument whose normalized form is left
    as it is by a second normalization gives the same run as that form;
    [make_embed] itself looks its [ntype] argument up in [EVENT_MAP] as
    it is given. *)
Theorem main_normalizes_event_kind (urllib : request -> http_result)
    (now cwd : str) (str_lower str_capitalize : str -> str)
    (w0 : Z) (webhook a0 title message : str) (rest : list str) :
  let run := main urllib now (Some cwd) str_lower str_capitalize (w0 :: webhook) in
  (str_lower (strip (str_lower (strip a0))) = str_lower (strip a0) ->
   run (a0 :: title :: message :: rest)
   = run (str_lower (strip a0) :: title :: message :: rest))
  /\ (exists e,
        make_embed str_capitalize now (str_lower (strip a0)) title message
          (split_urls rest) = Some e
        /\ run (a0 :: title :: message :: rest)
           = match send_webhook urllib (w0 :: webhook) (Some DEFAULT_USERNAME)
                     DEFAULT_AVATAR e DEFAULT_DEBUG with
             | Some (ok, trace) =>
                 Some (if ok then 0 else 1,
                       [ErrNoticeBuiltin (masked_len (Some (w0 :: webhook)));
                        ErrDebugInfo; ErrNoticeReceived (str_lower (strip a0))]
                       ++ trace)
             | None => None
             end)
  /\ forall ntype body urls,
       exists e,
         make_embed str_capitalize now ntype title body urls = Some e
         /\ (embed_title e, embed_color e)
            = match EVENT_MAP !! ntype with
              | Some (label, emoji, color) =>
                  (lit "SABnzbd: " ++ emoji ++ sp ++ label,
                   if color =? 0 then 0xFF9D00 else color)
              | None =>
                  (lit "SABnzbd: " ++ Glyph.info ++ sp ++ str_capitalize ntype,
                   0x3498DB)
              end.
Proof.
  intros run. subst run. split; [|split].
  - intros Hnorm. unfold main.
    cbn [mbind option_bind truthy negb length Nat.ltb Nat.leb].
    rewrite Hnorm. reflexivity.
  - unfold main. cbn [mbind option_bind truthy negb length Nat.ltb Nat.leb].
    fold (split_urls rest).
    destruct (make_embed_fields str_capitalize now (str_lower (strip a0)) title message
                (split_urls rest)) as (e & He & _).
    exists e. split; [exact He|].
    rewrite He. reflexivity.
  - intros ntype body urls.
    destruct (make_embed_fields str_capitalize now ntype title body urls)
      as (e & He & Ht & _ & Hc & _).
    exists e. split; [exact He|]. rewrite Ht, Hc. unfold map_entry.
    destruct (EVENT_MAP !! ntype) as [[[label emoji] color]|]; reflexivity.
Qed.

Lemma main_normalizes_event_kind_witness :
  lower (strip (lower (strip (lit " COMPLETE ")))) = lower (strip (lit " COMPLETE "))
  /\ main (fun _ => Responded 204) (lit "2026-01-01T00:00:00") (Some (lit "/"))
       lower capitalize (lit "https://discord.com/api/webhooks/1/x")
       [lit " COMPLETE "; lit "T"; lit "M"]
     = main (fun _ => Responded 204) (lit "2026-01-01T00:00:00") (Some (lit "/"))
         lower capitalize (lit "https://discord.com/api/webhooks/1/x")
         [lit "complete"; lit "T"; lit "M"].
Proof.
  split; [reflexivity|].
  apply (main_normalizes_event_kind (fun _ => Responded 204)
           (lit "2026-01-01T00:00:00") (lit "/") lower capitalize
           104 (lit "ttps://discord.com/api/webhooks/1/x")
           (lit " COMPLETE ") (lit "T") (lit "M") []).
  reflexivity.
Defined.

(** C2, as the claim words it, fails: [make_embed] does not normalize.
    Given the kind [Complete] it falls back to the synthesized
    presentation, given its trimmed lower-case form it finds the entry of
    [complete]. *)
Lemma make_embed_takes_kind_as_given :
  lower (strip (lit " COMPLETE ")) = lit "complete"
  /\ lower (strip (lit "Complete")) = lit "complete"
  /\ embed_title <$> make_embed capitalize (lit "2026-01-01T00:00:00") (lit "Complete")
                       (lit "T") (lit "M") []
     = Some (lit "SABnzbd: " ++ Glyph.info ++ sp ++ lit "Complete")
  /\ embed_title <$> make_embed capitalize (lit "2026-01-01T00:00:00") (lit " COMPLETE ")
                       (lit "T") (lit "M") []
     = Some (lit "SABnzbd: " ++ Glyph.info ++ sp ++ lit " complete ")
  /\ embed_title <$> make_embed capitalize (lit "2026-01-01T00:00:00") (lit "complete")
                       (lit "T") (lit "M") []
     = Some (lit "SABnzbd: " ++ Glyph.check ++ sp ++ lit "Job finished").
Proof. vm_compute. repeat split; reflexivity. Qed.

(** ** Field extraction, line by line *)

Lemma split_once_Some (sep : Z) (s k v : str) :
  split_once sep s = Some (k, v) <-> s = k ++ (sep :: v) /\ sep ∉ k.
Proof.
  revert k. induction s as [|c s IH]; intros k; cbn.
  - split; [discriminate|]. intros [H _]. destruct k; discriminate.
  - destruct (Z.eqb_spec c sep) as [->|Hne].
    + split.
      * intros [= <- <-]. split; [reflexivity | apply not_elem_of_nil].
      * intros [H Hk]. destruct k as [|d k]; cbn in H.
        -- injection H as <-. reflexivity.
        -- injection H as <- _. exfalso. apply Hk. left.
    + destruct (split_once sep s) as [[k' v']|] eqn:E.
      * split.
        -- intros [= <- <-]. destruct (proj1 (IH k') eq_refl) as [-> Hk'].
           split; [reflexivity|]. intros Hin. apply elem_of_cons in Hin as [->|Hin]; tauto.
        -- intros [H Hk]. destruct k as [|d k]; cbn in H; injection H as <- H; [tauto|].
           assert (Some (k', v') = Some (k, v)) as [= -> ->]; [|reflexivity].
           apply IH. split; [exact H|]. intros Hin. apply Hk. right. exact Hin.
      * split; [discriminate|].
        intros [H Hk]. destruct k as [|d k]; cbn in H; injection H as <- H; [tauto|].
        assert (None = Some (k, v)) as Habs; [|discriminate].
        apply IH. split; [exact H|]. intros Hin. apply Hk. right. exact Hin.
Qed.

Lemma split_once_None (sep : Z) (s : str) : split_once sep s = None <-> sep ∉ s.
Proof.
  induction s as [|c s IH]; cbn.
  - split; [intros _; apply not_elem_of_nil | reflexivity].
  - destruct (Z.eqb_spec c sep) as [->|Hne].
    + split; [discriminate|]. intros H. exfalso. apply H. left.
    + destruct (split_once sep s) as [[k v]|].
      * split; [discriminate|]. intros H. exfalso.
        assert (Some (k, v) = None) as Habs; [|discriminate].
        apply IH. intros Hin. apply H. right. exact Hin.
      * split; [|reflexivity]. intros _ Hin.
        apply elem_of_cons in Hin as [->|Hin]; [tauto|].
        revert Hin. apply IH. reflexivity.
Qed.

Lemma is_field_key_true (k0 : str) : is_field_key k0 = true <-> k0 ∈ field_keys.
Proof. unfold is_field_key. apply bool_decide_eq_true. Qed.

Lemma field_line_split (line k0 v0 : str) :
  field_line line k0 v0
  <-> exists k v, split_once colon line = Some (k, v)
                  /\ k0 = lower (strip k) /\ is_field_key k0 = true /\ v0 = strip v.
Proof.
  unfold field_line. split; intros (k & v & H & Hrest); exists k, v.
  - destruct Hrest as (Hk & -> & Hin & ->).
    split; [apply split_once_Some; auto|].
    split; [reflexivity|]. split; [apply is_field_key_true, Hin | reflexivity].
  - apply split_once_Some in H as [-> Hk]. destruct Hrest as (-> & Hin & ->).
    repeat split; auto. apply is_field_key_true, Hin.
Qed.

Lemma field_line_functional (line k0 v0 k1 v1 : str) :
  field_line line k0 v0 -> field_line line k1 v1 -> k0 = k1 /\ v0 = v1.
Proof.
  rewrite !field_line_split.
  intros (k & v & H & -> & _ & ->) (k' & v' & H' & -> & _ & ->).
  rewrite H in H'. injection H' as <- <-. split; reflexivity.
Qed.

Lemma is_field_line_true (line : str) :
  is_field_line line = true <-> exists k0 v0, field_line line k0 v0.
Proof.
  unfold is_field_line. split.
  - destruct (split_once colon line) as [[k v]|] eqn:E; [|discriminate].
    intros H. exists (lower (strip k)), (strip v).
    apply field_line_split. exists k, v. auto.
  - intros (k0 & v0 & H). apply field_line_split in H as (k & v & -> & -> & H & _).
    exact H.
Qed.

Lemma extract_step_field (fields : gmap str str) (keep_lines : list str)
    (line k0 v0 : str) :
  field_line line k0 v0 ->
  extract_step (fields, keep_lines) line = (<[k0 := v0]> fields, keep_lines).
Proof.
  intros H. apply field_line_split in H as (k & v & E & -> & Hk & ->).
  unfold extract_step. rewrite E. cbn zeta. rewrite Hk. reflexivity.
Qed.

Lemma extract_step_other (fields : gmap str str) (keep_lines : list str) (line : str) :
  is_field_line line = false ->
  extract_step (fields, keep_lines) line = (fields, keep_lines ++ [line]).
Proof.
  unfold is_field_line, extract_step.
  destruct (split_once colon line) as [[k v]|]; [|reflexivity].
  cbn zeta. intros ->. reflexivity.
Qed.

Lemma fold_extract_keep (lines : list str) (fields : gmap str str) (keep_lines : list str) :
  (fold_left extract_step lines (fields, keep_lines)).2
  = keep_lines ++ List.filter (fun l => negb (is_field_line l)) lines.
Proof.
  revert fields keep_lines.
  induction lines as [|l lines IH]; intros fields keep_lines; cbn [fold_left List.filter].
  - rewrite app_nil_r. reflexivity.
  - destruct (is_field_line l) eqn:E; cbn [negb].
    + apply is_field_line_true in E as (k0 & v0 & H).
      rewrite (extract_step_field _ _ _ _ _ H). apply IH.
    + rewrite (extract_step_other _ _ _ E), IH, <- app_assoc. reflexivity.
Qed.

Lemma last_field_snoc_other (lines : list str) (l k0 v0 : str) :
  (forall v', ~ field_line l k0 v') ->
  last_field (lines ++ [l]) k0 v0 <-> last_field lines k0 v0.
Proof.
  intros Hl. split; intros (before & line & after & E & Hf & Hafter).
  - destruct after as [|a after _] using rev_ind.
    + apply (app_inj_tail lines before l line) in E as [_ <-].
      exfalso. exact (Hl _ Hf).
    + rewrite app_comm_cons, app_assoc in E.
      apply app_inj_tail in E as [-> _].
      exists before, line, after. repeat split; auto.
      intros l' v' Hin. apply Hafter. apply elem_of_app. left. exact Hin.
  - exists before, line, (after ++ [l]). subst lines.
    split; [rewrite <- app_assoc; reflexivity|]. split; [exact Hf|].
    intros l' v' Hin. apply elem_of_app in Hin as [Hin|Hin]; [eauto|].
    apply list_elem_of_singleton in Hin as ->. apply Hl.
Qed.

Lemma last_field_snoc_same (lines : list str) (l k0 v0 v1 : str) :
  field_line l k0 v1 ->
  last_field (lines ++ [l]) k0 v0 <-> v0 = v1.
Proof.
  intros Hl. split.
  - intros (before & line & after & E & Hf & Hafter).
    destruct after as [|a after _] using rev_ind.
    + apply (app_inj_tail lines before l line) in E as [_ <-].
      apply (field_line_functional _ _ _ _ _ Hf Hl).
    + rewrite app_comm_cons, app_assoc in E.
      apply app_inj_tail in E as [_ <-].
      exfalso. apply (Hafter l v1); [|exact Hl].
      apply elem_of_app. right. apply list_elem_of_singleton. reflexivity.
  - intros ->. exists lines, l, []. repeat split; auto.
    intros l' v' Hin. apply elem_of_nil in Hin. contradiction.
Qed.

Lemma fold_extract_fields (lines : list str) (k0 v0 : str) :
  (fold_left extract_step lines (∅, [])).1 !! k0 = Some v0 <-> last_field lines k0 v0.
Proof.
  revert v0. induction lines as [|l lines IH] using rev_ind; intros v0.
  - cbn. rewrite lookup_empty. split; [discriminate|].
    intros (before & line & after & E & _). destruct before; discriminate.
  - rewrite fold_left_app. cbn [fold_left].
    destruct (fold_left extract_step lines (∅, [])) as [fields keep_lines] eqn:Efold.
    cbn [fst] in IH.
    destruct (is_field_line l) eqn:El.
    + apply is_field_line_true in El as (k1 & v1 & Hl).
      rewrite (extract_step_field _ _ _ _ _ Hl). cbn [fst].
      destruct (decide (k1 = k0)) as [->|Hne].
      * rewrite lookup_insert_eq, (last_field_snoc_same _ _ _ _ _ Hl).
        split; congruence.
      * rewrite lookup_insert_ne by exact Hne. rewrite IH.
        symmetry. apply last_field_snoc_other.
        intros v' Hf. apply Hne. apply (field_line_functional _ _ _ _ _ Hl Hf).
    + rewrite (extract_step_other _ _ _ El). cbn [fst]. rewrite IH.
      symmetry. apply last_field_snoc_other.
      intros v' Hf. assert (is_field_line l = true) as Habs; [|congruence].
      apply is_field_line_true. eauto.
Qed.

(** C7: extraction works line by line.  The kept lines are, in order,
    the lines that carry no field; a line carries a field exactly when
    the text before its first colon, trimmed and lower-cased, is one of
    the three keys; the field map gives a key the value of the last line
    that carries it; the cleaned description is the kept lines joined by
    line feeds and trimmed. *)
Theorem extraction_is_line_scoped (msg : str) :
  (extract_fields_from_message msg).1
  = strip (join nl (List.filter (fun l => negb (is_field_line l)) (splitlines msg)))
  /\ (forall l, is_field_line l = true <-> exists k0 v0, field_line l k0 v0)
  /\ (forall l k0 v0,
        field_line l k0 v0
        <-> exists k v, l = k ++ (colon :: v) /\ (colon ∉ k)
                        /\ k0 = lower (strip k)
                        /\ k0 ∈ [lit "category"; lit "download status"; lit "status"]
                        /\ v0 = strip v)
  /\ forall k0 v0,
       (extract_fields_from_message msg).2 !! k0 = Some v0
       <-> exists before line after,
             splitlines msg = before ++ line :: after
             /\ field_line line k0 v0
             /\ forall l v', l ∈ after -> ~ field_line l k0 v'.
Proof.
  unfold extract_fields_from_message.
  pose proof (fold_extract_keep (splitlines msg) ∅ []) as Hkeep.
  pose proof (fold_extract_fields (splitlines msg)) as Hfields.
  destruct (fold_left extract_step (splitlines msg) (∅, [])) as [fields keep_lines].
  cbn [fst snd] in *. subst keep_lines. cbn [app].
  split; [reflexivity|]. split; [apply is_field_line_true|].
  split; [intros l k0 v0; reflexivity|].
  exact Hfields.
Qed.

(** ** Trimming a text made of lines *)

Lemma lstrip_nil_iff (s : str) : lstrip s = [] <-> all_space s = true.
Proof.
  induction s as [|c s IH]; cbn; [tauto|].
  destruct (isspace c); cbn; [exact IH|]. split; discriminate.
Qed.

Lemma lstrip_split (s : str) : exists p, s = p ++ lstrip s.
Proof.
  induction s as [|c s [p IH]]; cbn; [exists []; reflexivity|].
  destruct (isspace c); [|exists []; reflexivity].
  exists (c :: p). cbn. rewrite <- IH. reflexivity.
Qed.

Lemma rev_lstrip (s : str) : rev (lstrip s) = rstrip (rev s).
Proof. unfold rstrip. rewrite rev_involutive. reflexivity. Qed.

Lemma rstrip_split (s : str) : exists p, s = rstrip s ++ p.
Proof.
  destruct (lstrip_split (rev s)) as [p Hp].
  exists (rev p). unfold rstrip. rewrite <- rev_app_distr, <- Hp, rev_involutive.
  reflexivity.
Qed.

Lemma join_cons (l : str) (ls : list str) :
  ls <> [] -> join nl (l :: ls) = l ++ nl ++ join nl ls.
Proof. intros H. destruct ls; [congruence | reflexivity]. Qed.

Lemma join_snoc (ls : list str) (l : str) :
  ls <> [] -> join nl (ls ++ [l]) = join nl ls ++ nl ++ l.
Proof.
  induction ls as [|a ls IH]; [intros H; congruence|]. intros _.
  destruct ls as [|b ls]; [reflexivity|].
  change ((a :: b :: ls) ++ [l]) with (a :: ((b :: ls) ++ [l])).
  rewrite (join_cons a ((b :: ls) ++ [l])) by (cbn; discriminate).
  rewrite IH by discriminate.
  rewrite (join_cons a (b :: ls)) by discriminate.
  rewrite <- !app_assoc. reflexivity.
Qed.

Lemma rev_join (ls : list str) : rev (join nl ls) = join nl (revlines ls).
Proof.
  unfold revlines.
  induction ls as [|l ls IH]; [reflexivity|].
  destruct ls as [|l' ls]; [reflexivity|].
  rewrite join_cons by discriminate.
  rewrite !rev_app_distr, IH.
  set (X := l' :: ls).
  change (rev (map (@rev Z) (l :: X))) with (rev (map (@rev Z) X) ++ [rev l]).
  rewrite join_snoc.
  - change (rev nl) with nl. rewrite <- app_assoc. reflexivity.
  - subst X. cbn. destruct (rev (map (@rev Z) ls)); discriminate.
Qed.

Lemma revlines_involutive (ls : list str) : revlines (revlines ls) = ls.
Proof.
  unfold revlines. rewrite map_rev, rev_involutive, map_map.
  rewrite <- (map_id ls) at 2. apply map_ext. intros l. apply rev_involutive.
Qed.

Lemma lstrip_join (ls : list str) : lstrip (join nl ls) = join nl (lstrip_lines ls).
Proof.
  induction ls as [|l ls IH]; [reflexivity|].
  cbn [lstrip_lines].
  destruct ls as [|l' ls].
  - cbn [join]. destruct (all_space l) eqn:E; [|reflexivity].
    apply lstrip_nil_iff. exact E.
  - rewrite (join_cons l (l' :: ls)) by discriminate. rewrite lstrip_app.
    destruct (all_space l) eqn:E.
    + apply lstrip_nil_iff in E. rewrite E. exact IH.
    + destruct (lstrip l) as [|c r] eqn:El.
      * apply lstrip_nil_iff in El. congruence.
      * rewrite (join_cons (c :: r) (l' :: ls)) by discriminate. reflexivity.
Qed.

Lemma rstrip_join (ls : list str) :
  rstrip (join nl ls) = join nl (revlines (lstrip_lines (revlines ls))).
Proof.
  unfold rstrip. rewrite rev_join, lstrip_join, rev_join. reflexivity.
Qed.

Lemma strip_join (ls : list str) :
  strip (join nl ls)
  = join nl (revlines (lstrip_lines (revlines (lstrip_lines ls)))).
Proof. unfold strip. rewrite lstrip_join. apply rstrip_join. Qed.

Lemma Forall_lstrip_lines (P : str -> Prop) (ls : list str) :
  (forall l, P l -> P (lstrip l)) -> Forall P ls -> Forall P (lstrip_lines ls).
Proof.
  intros HP. induction 1 as [|l ls Hl Hls IH]; cbn; [constructor|].
  destruct (all_space l); [exact IH|]. constructor; auto.
Qed.

Lemma Forall_revlines (P : str -> Prop) (ls : list str) :
  Forall (fun l => P (rev l)) ls -> Forall P (revlines ls).
Proof.
  intros H. unfold revlines. apply Forall_rev.
  induction H; cbn; constructor; auto.
Qed.

Lemma Forall_strip_lines (P : str -> Prop) (ls : list str) :
  (forall l, P l -> P (lstrip l)) -> (forall l, P l -> P (rstrip l)) ->
  Forall P ls -> Forall P (revlines (lstrip_lines (revlines (lstrip_lines ls)))).
Proof.
  intros HL HR H.
  apply Forall_revlines.
  apply (Forall_lstrip_lines (fun l => P (rev l))).
  - intros l Hl. rewrite rev_lstrip. apply HR, Hl.
  - rewrite <- (revlines_involutive (lstrip_lines ls)) in *.
    set (X := revlines (lstrip_lines ls)).
    assert (HX : Forall P (revlines X)).
    { subst X. rewrite revlines_involutive. apply Forall_lstrip_lines; assumption. }
    rewrite revlines_involutive.
    clearbody X. clear H.
    unfold revlines in HX. apply Forall_rev in HX. rewrite rev_involutive in HX.
    induction X as [|x X IH]; [constructor|].
    cbn in HX. inversion HX; subst. constructor; auto.
Qed.

(** ** Lines after trimming *)

Lemma elem_of_lstrip (c : Z) (s : str) : c ∈ lstrip s -> c ∈ s.
Proof.
  destruct (lstrip_split s) as [p Hp]. intros H. rewrite Hp.
  apply elem_of_app. right. exact H.
Qed.

Lemma elem_of_rstrip (c : Z) (s : str) : c ∈ rstrip s -> c ∈ s.
Proof.
  destruct (rstrip_split s) as [p Hp]. intros H. rewrite Hp.
  apply elem_of_app. left. exact H.
Qed.

Lemma isspace_colon : isspace colon = false.
Proof. reflexivity. Qed.

Lemma is_field_line_lstrip (l : str) : is_field_line (lstrip l) = is_field_line l.
Proof.
  unfold is_field_line.
  destruct (split_once colon l) as [[k v]|] eqn:E.
  - apply split_once_Some in E as [-> Hk].
    assert (Hl : lstrip (k ++ colon :: v) = lstrip k ++ colon :: v).
    { rewrite lstrip_app. destruct (lstrip k); [|reflexivity].
      apply lstrip_fixed, isspace_colon. }
    rewrite Hl.
    assert (Hs : split_once colon (lstrip k ++ colon :: v) = Some (lstrip k, v)).
    { apply split_once_Some. split; [reflexivity|].
      intros Hin. apply Hk. apply elem_of_lstrip, Hin. }
    rewrite Hs, strip_lstrip. reflexivity.
  - apply split_once_None in E.
    assert (Hs : split_once colon (lstrip l) = None).
    { apply split_once_None. intros Hin. apply E. apply elem_of_lstrip, Hin. }
    rewrite Hs. reflexivity.
Qed.

Lemma is_field_line_rstrip (l : str) : is_field_line (rstrip l) = is_field_line l.
Proof.
  unfold is_field_line.
  destruct (split_once colon l) as [[k v]|] eqn:E.
  - apply split_once_Some in E as [-> Hk].
    assert (Hl : exists v', rstrip (k ++ colon :: v) = k ++ colon :: v').
    { rewrite rstrip_app, rstrip_cons, isspace_colon.
      destruct (rstrip v) as [|d t]; [exists [] | exists (d :: t)]; reflexivity. }
    destruct Hl as [v' Hl]. rewrite Hl.
    assert (Hs : split_once colon (k ++ colon :: v') = Some (k, v')).
    { apply split_once_Some. split; [reflexivity | exact Hk]. }
    rewrite Hs. reflexivity.
  - apply split_once_None in E.
    assert (Hs : split_once colon (rstrip l) = None).
    { apply split_once_None. intros Hin. apply E. apply elem_of_rstrip, Hin. }
    rewrite Hs. reflexivity.
Qed.

Lemma one_line_lstrip (l : str) : one_line l -> one_line (lstrip l).
Proof.
  unfold one_line. destruct (lstrip_split l) as [p Hp].
  intros H. rewrite Hp in H. apply Forall_app in H as [_ H]. exact H.
Qed.

Lemma one_line_rstrip (l : str) : one_line l -> one_line (rstrip l).
Proof.
  unfold one_line. destruct (rstrip_split l) as [p Hp].
  intros H. rewrite Hp in H. apply Forall_app in H as [H _]. exact H.
Qed.

(** The lines [splitlines] returns hold no line boundary. *)
Lemma splitlines_one_line (s : str) : Forall one_line (splitlines s).
Proof.
  remember (length s) as n eqn:Hn.
  revert s Hn. induction n as [n IH] using lt_wf_ind. intros s ->.
  destruct s as [|c r]; [constructor|].
  cbn [splitlines].
  destruct (islinebreak c) eqn:Hc.
  - constructor; [constructor|].
    destruct r as [|c' r']; [constructor|].
    destruct ((c =? 13) && (c' =? 10)).
    + apply (IH (length r')); [cbn; lia | reflexivity].
    + apply (IH (length (c' :: r'))); [cbn; lia | reflexivity].
  - assert (Hr : Forall one_line (splitlines r)).
    { apply (IH (length r)); [cbn; lia | reflexivity]. }
    destruct (splitlines r) as [|l ls].
    + constructor; [|constructor]. constructor; [exact Hc | constructor].
    + inversion Hr; subst. constructor; [|assumption].
      constructor; assumption.
Qed.

Lemma splitlines_app_nl (l rest : str) :
  one_line l -> splitlines (l ++ nl ++ rest) = l :: splitlines rest.
Proof.
  induction 1 as [|c l Hc Hl IH]; cbn [app splitlines].
  - cbn. destruct rest; reflexivity.
  - rewrite Hc. cbn [app] in IH. rewrite IH. reflexivity.
Qed.

Lemma splitlines_single (l : str) : one_line l -> l <> [] -> splitlines l = [l].
Proof.
  induction 1 as [|c l Hc Hl IH]; [congruence|]. intros _.
  cbn [splitlines]. rewrite Hc.
  destruct l as [|d l]; [reflexivity|].
  rewrite IH by discriminate. reflexivity.
Qed.

Lemma splitlines_join (ls : list str) :
  Forall one_line ls -> last ls <> Some [] -> splitlines (join nl ls) = ls.
Proof.
  induction 1 as [|l ls Hl Hls IH]; [reflexivity|]. intros Hlast.
  destruct ls as [|l' ls].
  - cbn [join]. apply splitlines_single; [exact Hl|].
    intros ->. apply Hlast. reflexivity.
  - rewrite (join_cons l (l' :: ls)) by discriminate.
    rewrite splitlines_app_nl by exact Hl.
    rewrite IH; [reflexivity|]. exact Hlast.
Qed.

Lemma lstrip_lines_head (ls : list str) (l : str) (rest : list str) :
  lstrip_lines ls = l :: rest -> l <> [].
Proof.
  induction ls as [|a ls IH]; cbn; [discriminate|].
  destruct (all_space a) eqn:E; [exact IH|].
  intros [= <- _] Hnil. apply lstrip_nil_iff in Hnil. congruence.
Qed.

Lemma last_revlines_lstrip_lines (ls : list str) :
  last (revlines (lstrip_lines ls)) <> Some [].
Proof.
  unfold revlines.
  destruct (lstrip_lines ls) as [|l rest] eqn:E; [discriminate|].
  cbn [map rev]. rewrite last_snoc. intros [= H].
  apply (lstrip_lines_head _ _ _ E).
  rewrite <- (rev_involutive l), H. reflexivity.
Qed.

Lemma fold_extract_none (lines : list str) (fields : gmap str str)
    (keep_lines : list str) :
  Forall (fun l => is_field_line l = false) lines ->
  fold_left extract_step lines (fields, keep_lines) = (fields, keep_lines ++ lines).
Proof.
  intros H. revert keep_lines.
  induction H as [|l lines Hl _ IH]; intros keep_lines; cbn [fold_left].
  - rewrite app_nil_r. reflexivity.
  - rewrite (extract_step_other _ _ _ Hl), IH, <- app_assoc. reflexivity.
Qed.

(** The first run: the cleaned description is the trimmed join of kept
    lines, none of which holds a line boundary or carries a field. *)
Lemma extraction_lines (msg : str) :
  exists keep_lines,
    (extract_fields_from_message msg).1 = strip (join nl keep_lines)
    /\ Forall one_line keep_lines
    /\ Forall (fun l => is_field_line l = false) keep_lines.
Proof.
  exists (List.filter (fun l => negb (is_field_line l)) (splitlines msg)).
  unfold extract_fields_from_message.
  pose proof (fold_extract_keep (splitlines msg) ∅ []) as Hkeep.
  destruct (fold_left extract_step (splitlines msg) (∅, [])) as [fields keep_lines].
  cbn [fst snd app] in *. subst keep_lines.
  split; [reflexivity|].
  pose proof (splitlines_one_line msg) as Hone.
  induction Hone as [|l ls Hl Hls [IH1 IH2]]; cbn [List.filter]; [split; constructor|].
  destruct (is_field_line l) eqn:E; cbn [negb]; [split; assumption|].
  split; constructor; assumption.
Qed.

(** C8: extraction is idempotent on the cleaned description: a second
    run finds no field and returns the cleaned description as it is. *)
Theorem extraction_idempotent_on_cleaned (msg : str) :
  extract_fields_from_message (extract_fields_from_message msg).1
  = ((extract_fields_from_message msg).1, ∅).
Proof.
  destruct (extraction_lines msg) as (keep_lines & Hclean & Hone & Hnone).
  rewrite Hclean.
  set (K := revlines (lstrip_lines (revlines (lstrip_lines keep_lines)))).
  assert (HK : strip (join nl keep_lines) = join nl K) by apply strip_join.
  assert (Hlines : splitlines (join nl K) = K).
  { apply splitlines_join.
    - apply Forall_strip_lines;
        [exact one_line_lstrip | exact one_line_rstrip | exact Hone].
    - apply last_revlines_lstrip_lines. }
  assert (HnoneK : Forall (fun l => is_field_line l = false) K).
  { apply (Forall_strip_lines (fun l => is_field_line l = false)); [| |exact Hnone].
    - intros l Hl. rewrite is_field_line_lstrip. exact Hl.
    - intros l Hl. rewrite is_field_line_rstrip. exact Hl. }
  rewrite HK. unfold extract_fields_from_message at 1.
  rewrite Hlines, (fold_extract_none _ _ _ HnoneK). cbn [app].
  rewrite <- HK, strip_idem. reflexivity.
Qed.

(** * Further properties *)

(** ** URL arguments *)

Lemma split_not_nil (sep : Z) (s : str) : split sep s <> [].
Proof.
  induction s as [|c s IH]; cbn; [discriminate|].
  destruct (c =? sep); [discriminate|].
  destruct (split sep s); discriminate.
Qed.

Lemma split_pieces (sep : Z) (s : str) : Forall (fun p => sep ∉ p) (split sep s).
Proof.
  induction s as [|c s IH]; cbn.
  - constructor; [apply not_elem_of_nil | constructor].
  - destruct (Z.eqb_spec c sep) as [->|Hne].
    + constructor; [apply not_elem_of_nil | exact IH].
    + destruct (split sep s) as [|l ls]; inversion IH; subst;
        (constructor; [|first [assumption | constructor]]);
        intros Hin; apply elem_of_cons in Hin as [Hin|Hin]; try congruence;
        first [contradiction | apply elem_of_nil in Hin; contradiction].
Qed.

Lemma split_without_sep (sep : Z) (s : str) : sep ∉ s -> split sep s = [s].
Proof.
  induction s as [|c s IH]; intros Hs; cbn; [reflexivity|].
  destruct (Z.eqb_spec c sep) as [->|Hne]; [exfalso; apply Hs; left|].
  rewrite IH; [reflexivity|]. intros Hin. apply Hs. right. exact Hin.
Qed.

Lemma split_app_sep (sep : Z) (a b : str) :
  split sep (a ++ sep :: b) = split sep a ++ split sep b.
Proof.
  induction a as [|c a IH]; cbn [app split].
  - rewrite Z.eqb_refl. reflexivity.
  - destruct (c =? sep); [rewrite IH; reflexivity|].
    rewrite IH. pose proof (split_not_nil sep a) as Hne.
    destruct (split sep a); [congruence | reflexivity].
Qed.

Lemma url_parts_app_sep (a b : str) :
  url_parts (a ++ comma :: b) = url_parts a ++ url_parts b.
Proof.
  unfold url_parts. rewrite split_app_sep, map_app, List.filter_app. reflexivity.
Qed.

Lemma split_urls_cons (u : str) (url_args : list str) :
  split_urls (u :: url_args) = url_parts u ++ split_urls url_args.
Proof. reflexivity. Qed.

Lemma url_parts_join (url_args : list str) :
  url_parts (join [comma] url_args) = split_urls url_args.
Proof.
  induction url_args as [|u url_args IH]; [reflexivity|].
  rewrite split_urls_cons, <- IH.
  destruct url_args as [|u' url_args].
  - cbn [join]. change (url_parts []) with (@nil str). rewrite app_nil_r. reflexivity.
  - change (join [comma] (u :: u' :: url_args))
      with (u ++ comma :: join [comma] (u' :: url_args)).
    apply url_parts_app_sep.
Qed.

Lemma url_parts_clean (u : str) : Forall clean_url (url_parts u).
Proof.
  unfold url_parts. pose proof (split_pieces comma u) as H.
  induction H as [|p ps Hp _ IH]; cbn [map List.filter]; [constructor|].
  destruct (truthy (strip p)) eqn:E; [|exact IH].
  constructor; [|exact IH]. repeat split.
  - intros Hnil. rewrite Hnil in E. discriminate.
  - apply strip_idem.
  - intros Hin. apply Hp. unfold strip in Hin.
    apply elem_of_lstrip, elem_of_rstrip, Hin.
Qed.

Lemma url_parts_of_clean (u : str) : clean_url u -> url_parts u = [u].
Proof.
  intros (Hne & Hs & Hc). unfold url_parts.
  rewrite (split_without_sep _ _ Hc). cbn [map List.filter]. rewrite Hs.
  destruct u; [congruence | reflexivity].
Qed.

Lemma split_urls_of_clean (urls : list str) :
  Forall clean_url urls -> split_urls urls = urls.
Proof.
  induction 1 as [|u urls Hu _ IH]; [reflexivity|].
  rewrite split_urls_cons, IH, (url_parts_of_clean _ Hu). reflexivity.
Qed.

Lemma split_urls_clean (url_args : list str) : Forall clean_url (split_urls url_args).
Proof.
  induction url_args as [|u url_args IH]; [constructor|].
  rewrite split_urls_cons. apply Forall_app. split; [apply url_parts_clean | exact IH].
Qed.

(** X1: every URL [split_urls] returns is non-empty, has no white space
    at its ends and holds no comma; applying [split_urls] to its own
    result changes nothing. *)
Theorem split_urls_normal_form (url_args : list str) :
  Forall (fun u => u <> [] /\ strip u = u /\ comma ∉ u) (split_urls url_args)
  /\ split_urls (split_urls url_args) = split_urls url_args.
Proof.
  split; [apply split_urls_clean|].
  apply split_urls_of_clean, split_urls_clean.
Qed.

(** X2: URLs given as separate arguments and the same URLs joined by
    commas in one argument give the same list, and the list of two
    argument lists put together is the two results put together; a list
    of URLs that are non-empty, trimmed and free of commas is recovered
    from its comma-joined form. *)
Theorem split_urls_of_joined (url_args more : list str) :
  split_urls [join [comma] url_args] = split_urls url_args
  /\ split_urls (url_args ++ more) = split_urls url_args ++ split_urls more
  /\ (Forall (fun u => u <> [] /\ strip u = u /\ comma ∉ u) url_args ->
      split_urls [join [comma] url_args] = url_args).
Proof.
  assert (H : split_urls [join [comma] url_args] = split_urls url_args).
  { rewrite split_urls_cons. change (split_urls []) with (@nil str).
    rewrite app_nil_r. apply url_parts_join. }
  split; [exact H|]. split.
  - unfold split_urls. apply flat_map_app.
  - intros Hclean. rewrite H. apply split_urls_of_clean, Hclean.
Qed.

(** ** What extraction returns *)

Lemma strip_head (s r : str) (c : Z) : strip s = c :: r -> isspace c = false.
Proof.
  unfold strip. rewrite <- lstrip_rstrip. apply lstrip_head.
Qed.

Lemma strip_last (s : str) (c : Z) : last (strip s) = Some c -> isspace c = false.
Proof.
  unfold strip, rstrip.
  destruct (lstrip (rev (lstrip s))) as [|d t] eqn:E; [discriminate|].
  cbn [rev]. rewrite last_snoc. intros [= <-]. eapply lstrip_head, E.
Qed.

Lemma fold_extract_empty (lines : list str) :
  (fold_left extract_step lines (∅, [])).1 = ∅
  <-> Forall (fun l => is_field_line l = false) lines.
Proof.
  split.
  - induction lines as [|l lines IH] using rev_ind; [constructor|].
    rewrite fold_left_app. cbn [fold_left].
    destruct (fold_left extract_step lines (∅, [])) as [fields keep_lines].
    cbn [fst] in IH.
    destruct (is_field_line l) eqn:El.
    + apply is_field_line_true in El as (k1 & v1 & Hl).
      rewrite (extract_step_field _ _ _ _ _ Hl). cbn [fst].
      intros H. exfalso. revert H. apply insert_non_empty.
    + rewrite (extract_step_other _ _ _ El). cbn [fst]. intros H.
      apply Forall_app. split; [apply IH, H | constructor; [exact El | constructor]].
  - intros H. rewrite (fold_extract_none _ _ _ H). reflexivity.
Qed.

Lemma elem_of_splitlines (s l : str) (c : Z) : l ∈ splitlines s -> c ∈ l -> c ∈ s.
Proof.
  remember (length s) as n eqn:Hn.
  revert s l Hn. induction n as [n IH] using lt_wf_ind. intros s l ->.
  destruct s as [|d r]; cbn [splitlines]; [intros H; apply elem_of_nil in H; contradiction|].
  destruct (islinebreak d).
  - intros Hl Hc. apply elem_of_cons in Hl as [->|Hl]; [apply elem_of_nil in Hc; contradiction|].
    right. destruct r as [|c' r']; [apply elem_of_nil in Hl; contradiction|].
    destruct ((d =? 13) && (c' =? 10)).
    + right. apply (IH (length r') ltac:(cbn; lia) r' l eq_refl Hl Hc).
    + apply (IH (length (c' :: r')) ltac:(cbn; lia) (c' :: r') l eq_refl Hl Hc).
  - pose proof (IH (length r) ltac:(cbn; lia) r) as IHr.
    destruct (splitlines r) as [|l0 ls].
    + intros Hl Hc. apply list_elem_of_singleton in Hl as ->.
      apply list_elem_of_singleton in Hc as ->. left.
    + intros Hl Hc. apply elem_of_cons in Hl as [->|Hl].
      * apply elem_of_cons in Hc as [->|Hc]; [left|].
        right. apply (IHr l0 eq_refl); [left | exact Hc].
      * right. apply (IHr l eq_refl); [right; exact Hl | exact Hc].
Qed.

Lemma no_colon_no_field (line : str) : colon ∉ line -> is_field_line line = false.
Proof.
  intros H. unfold is_field_line.
  apply split_once_None in H. rewrite H. reflexivity.
Qed.

Lemma extract_no_field (msg : str) :
  Forall (fun l => is_field_line l = false) (splitlines msg) ->
  extract_fields_from_message msg = (strip (join nl (splitlines msg)), ∅).
Proof.
  intros H. unfold extract_fields_from_message.
  rewrite (fold_extract_none _ _ _ H). reflexivity.
Qed.

Lemma extract_no_colon (msg : str) :
  colon ∉ msg ->
  extract_fields_from_message msg = (strip (join nl (splitlines msg)), ∅).
Proof.
  intros Hc. apply extract_no_field. apply Forall_forall. intros l Hl.
  apply no_colon_no_field. intros Hin. apply Hc.
  apply (elem_of_splitlines _ _ _ Hl Hin).
Qed.

Lemma extract_cleaned_trimmed (msg : str) :
  strip (extract_fields_from_message msg).1 = (extract_fields_from_message msg).1
  /\ (forall c, head (extract_fields_from_message msg).1 = Some c -> isspace c = false)
  /\ (forall c, last (extract_fields_from_message msg).1 = Some c -> isspace c = false).
Proof.
  unfold extract_fields_from_message.
  destruct (fold_left extract_step (splitlines msg) (∅, [])) as [fields keep_lines].
  cbn [fst]. split; [apply strip_idem|]. split.
  - intros c Hc. destruct (strip (join nl keep_lines)) as [|d r] eqn:E; [discriminate|].
    injection Hc as <-. eapply strip_head, E.
  - apply strip_last.
Qed.

(** X3: whatever the message, the field map holds only the keys
    [category], [download status] and [status] (so at most three
    entries), each value is trimmed, and the cleaned description is
    trimmed: it neither starts nor ends with white space. *)
Theorem extraction_output_is_trimmed (msg : str) :
  map_Forall (fun k0 v0 => k0 ∈ field_keys /\ strip v0 = v0)
             (extract_fields_from_message msg).2
  /\ (size (extract_fields_from_message msg).2 <= 3)%nat
  /\ strip (extract_fields_from_message msg).1 = (extract_fields_from_message msg).1
  /\ (forall c, head (extract_fields_from_message msg).1 = Some c -> isspace c = false)
  /\ (forall c, last (extract_fields_from_message msg).1 = Some c -> isspace c = false).
Proof.
  assert (Hmap : map_Forall (fun k0 v0 => k0 ∈ field_keys /\ strip v0 = v0)
                   (extract_fields_from_message msg).2).
  { unfold extract_fields_from_message.
    pose proof (fold_extract_fields (splitlines msg)) as Hfields.
    destruct (fold_left extract_step (splitlines msg) (∅, [])) as [fields keep_lines].
    cbn [fst snd] in *. intros k0 v0 Hk.
    apply Hfields in Hk as (before & line & after & _ & Hf & _).
    destruct Hf as (k & v & _ & _ & _ & Hin & ->).
    split; [exact Hin | apply strip_idem]. }
  split; [exact Hmap|]. split.
  - rewrite <- size_dom.
    assert (Hsub : dom (extract_fields_from_message msg).2
                   ⊆ (list_to_set field_keys : gset str)).
    { intros k Hk. apply elem_of_dom in Hk as [v Hv].
      apply elem_of_list_to_set. apply (Hmap k v Hv). }
    apply subseteq_size in Hsub. etransitivity; [exact Hsub|].
    vm_compute. lia.
  - apply extract_cleaned_trimmed.
Qed.

(** X4: the field map is empty exactly when no line of the message
    carries one of the keys, and the cleaned description is then the
    lines of the message joined by line feeds and trimmed; this is so in
    particular for a message without any colon. *)
Theorem extraction_without_fields (msg : str) :
  ((extract_fields_from_message msg).2 = ∅
   <-> Forall (fun l => is_field_line l = false) (splitlines msg))
  /\ (Forall (fun l => is_field_line l = false) (splitlines msg) ->
      extract_fields_from_message msg = (strip (join nl (splitlines msg)), ∅))
  /\ (colon ∉ msg ->
      extract_fields_from_message msg = (strip (join nl (splitlines msg)), ∅)).
Proof.
  split; [|split; [apply extract_no_field | apply extract_no_colon]].
  unfold extract_fields_from_message.
  pose proof (fold_extract_empty (splitlines msg)) as H.
  destruct (fold_left extract_step (splitlines msg) (∅, [])) as [fields keep_lines].
  exact H.
Qed.

Ltac in_list := repeat first [apply list_elem_of_here | apply list_elem_of_further].

(** ** Glyphs and colours of the presentations *)

(** X5: which colours get which glyph.  The orange circle is returned on
    the whole range [0xF00000..0xFFFF00]; that range covers the range
    written for the red circle, which is therefore returned for
    [0xE74C3C] alone; the green circle is returned on its range, the blue
    circle for [0x3498DB] alone, and every other colour gets the small
    square. *)
Theorem color_emoji_for_color_cases (color : Z) :
  (color_emoji_for_color color = Glyph.orange_circle
   <-> 0xF00000 <= color <= 0xFFFF00)
  /\ (color_emoji_for_color color = Glyph.green_circle
      <-> 0x00FF00 <= color <= 0x33FF33)
  /\ (color_emoji_for_color color = Glyph.red_circle <-> color = 0xE74C3C)
  /\ (color_emoji_for_color color = Glyph.blue_circle <-> color = 0x3498DB)
  /\ (color_emoji_for_color color = Glyph.small_square
      <-> ~ (0xF00000 <= color <= 0xFFFF00) /\ ~ (0x00FF00 <= color <= 0x33FF33)
          /\ color <> 0xE74C3C /\ color <> 0x3498DB).
Proof.
  unfold color_emoji_for_color.
  repeat (match goal with
          | |- context [ (?a <=? ?b) ] => destruct (Z.leb_spec a b)
          | |- context [ (?a =? ?b) ] => destruct (Z.eqb_spec a b)
          end; try (exfalso; lia); cbn [andb orb]);
    repeat split; intros; try discriminate; try lia; try reflexivity.
Qed.

Lemma map_entry_cases (str_capitalize : str -> str) (ntype : str) :
  (map_entry str_capitalize ntype).2 ∈ accent_colors.
Proof.
  unfold map_entry.
  destruct (EVENT_MAP !! ntype) as [p|] eqn:E; cbn [default].
  - apply elem_of_list_to_map_2 in E.
    repeat (apply elem_of_cons in E as [E|E];
            [injection E as _ ->; cbn; unfold accent_colors; in_list|]).
    apply elem_of_nil in E. contradiction.
  - cbn. unfold accent_colors. in_list.
Qed.

(** X6: for every event kind, listed in [EVENT_MAP] or not, the glyph of
    the Category value is the orange, green, red or blue circle: the
    small square and the yellow circle never show. *)
Theorem category_glyph_of_any_kind (str_capitalize : str -> str) (now ntype title body : str) (urls : list str) :
  exists e circle category,
    make_embed str_capitalize now ntype title body urls = Some e
    /\ embed_fields e !! 0%nat
       = Some (Field (lit "Category") (circle ++ sp ++ category) true)
    /\ circle = color_emoji_for_color (map_entry str_capitalize ntype).2
    /\ circle ∈ [Glyph.orange_circle; Glyph.green_circle; Glyph.red_circle;
                 Glyph.blue_circle].
Proof.
  destruct (make_embed_fields str_capitalize now ntype title body urls)
    as (e & He & _ & _ & _ & _ & Hf & _).
  exists e. eexists _, _. split; [exact He|].
  split; [rewrite Hf; reflexivity|]. split; [reflexivity|].
  pose proof (map_entry_cases str_capitalize ntype) as Hc. unfold accent_colors in Hc.
  repeat (apply elem_of_cons in Hc as [->|Hc]; [cbn; in_list|]).
  apply elem_of_nil in Hc. contradiction.
Qed.

(** X7: the colour of the embed is always the accent colour of the
    presentation, one of five non-zero 24-bit values; the colour computed
    from hue, saturation and lightness is never the one used. *)
Theorem embed_color_is_accent_color (str_capitalize : str -> str) (now ntype title body : str) (urls : list str) :
  exists e,
    make_embed str_capitalize now ntype title body urls = Some e
    /\ embed_color e = (map_entry str_capitalize ntype).2
    /\ embed_color e ∈ [0xF39C12; 0x2ECC71; 0xE74C3C; 0xF1C40F; 0x3498DB]
    /\ 0 < embed_color e <= 0xFFFFFF
    /\ Some (embed_color e) <> hsl_to_rgb_int 37 1 0.5.
Proof.
  destruct (make_embed_fields str_capitalize now ntype title body urls)
    as (e & He & _ & _ & Hc & _).
  exists e. split; [exact He|]. rewrite Hc, hsla_color_int_value.
  pose proof (map_entry_cases str_capitalize ntype) as Hin. unfold accent_colors in Hin.
  repeat (apply elem_of_cons in Hin as [->|Hin];
          [cbn; repeat split; try lia; try discriminate; in_list|]).
  apply elem_of_nil in Hin. contradiction.
Qed.


(** ** Delivery outside debug mode *)

(** X9: outside debug mode [send_webhook] raises only when the request
    cannot be built; otherwise it calls [urlopen] exactly once, on the
    given URL with the three fixed headers, a timeout of 10 and the very
    payload debug mode would print, and it returns [True] exactly when
    the answer is a response with a status from 200 to 299. *)
Theorem send_webhook_one_request (urllib : request -> http_result)
    (webhook_url : str) (username avatar_url : option str) (e : embed) :
  let req := Request webhook_url (build_payload username avatar_url e) headers 10 in
  send_webhook urllib webhook_url username avatar_url e true
  = Some (true, [OutDebugPayloadHeader; OutPayload (req_data req)])
  /\ match send_webhook urllib webhook_url username avatar_url e false with
     | None => urllib req = RequestRaised
     | Some (ok, trace) =>
         urllib req <> RequestRaised
         /\ List.filter is_network_call trace = [UrlOpen req]
         /\ (ok = true <-> exists code, urllib req = Responded code /\ 200 <= code < 300)
     end.
Proof.
  intros req. split; [reflexivity|].
  unfold send_webhook. fold req.
  destruct (urllib req) as [|code|code reason body|description] eqn:E.
  - reflexivity.
  - destruct ((200 <=? code) && (code <? 300)) eqn:Hc;
      (split; [discriminate|]); (split; [reflexivity|]).
    + split; [|reflexivity]. intros _. exists code. split; [reflexivity|].
      apply andb_true_iff in Hc as [H1 H2]. lia.
    + split; [discriminate|]. intros (code' & [= <-] & H1).
      apply andb_false_iff in Hc as [Hc|Hc]; lia.
  - split; [discriminate|]. split.
    + destruct body as [[|c b]|]; destruct (code =? 403); reflexivity.
    + split; [discriminate | intros (code' & Habs & _); discriminate].
  - split; [discriminate|]. split; [reflexivity|].
    split; [discriminate | intros (code' & Habs & _); discriminate].
Qed.

(** X10: the hint about an invalid or deleted webhook is printed exactly
    when [urlopen] raises [HTTPError] with code 403 (a plain response
    with status 403 does not print it), and the body of an error is
    printed exactly when it could be read and is not empty. *)
Theorem send_webhook_error_lines (urllib : request -> http_result)
    (webhook_url : str) (username avatar_url : option str) (e : embed)
    (ok : bool) (trace : list event) :
  send_webhook urllib webhook_url username avatar_url e false = Some (ok, trace) ->
  let r := urllib (Request webhook_url (build_payload username avatar_url e) headers 10) in
  (ErrHint403 ∈ trace <-> exists reason body, r = RaisedHTTPError 403 reason body)
  /\ (forall b, ErrBody b ∈ trace
                <-> b <> [] /\ exists code reason, r = RaisedHTTPError code reason (Some b)).
Proof.
  intros H r. unfold send_webhook in H. fold r in H.
  destruct r as [|code|code reason body|description]; [discriminate| | |].
  - assert (Ht : exists ev, trace = [ErrNoticeSending (masked_len (Some webhook_url));
                                     UrlOpen (Request webhook_url
                                       (build_payload username avatar_url e) headers 10); ev]
                            /\ (ev = ErrNoticeSucceeded code \/ ev = ErrResponded code)).
    { destruct ((200 <=? code) && (code <? 300)); injection H as _ <-;
        eexists; (split; [reflexivity|]); auto. }
    destruct Ht as (ev & -> & Hev). split; [|intros b]; split.
    + intros Hin. repeat (apply elem_of_cons in Hin as [Hin|Hin]; [destruct Hev; congruence|]).
      apply elem_of_nil in Hin. contradiction.
    + intros (reason & body & Habs). discriminate.
    + intros Hin. repeat (apply elem_of_cons in Hin as [Hin|Hin]; [destruct Hev; congruence|]).
      apply elem_of_nil in Hin. contradiction.
    + intros (_ & code' & reason & Habs). discriminate.
  - injection H as _ <-. split; [|intros b]; split.
    + intros Hin. exists reason, body.
      destruct (Z.eqb_spec code 403) as [->|Hne]; [reflexivity|].
      exfalso. destruct body as [[|c b]|]; cbn in Hin;
        repeat (apply elem_of_cons in Hin as [Hin|Hin]; [discriminate|]);
        apply elem_of_nil in Hin; contradiction.
    + intros (reason' & body' & [= -> _ _]).
      destruct body as [[|c b]|]; cbn; repeat first [apply list_elem_of_here | apply list_elem_of_further].
    + intros Hin.
      destruct body as [[|c b']|]; destruct (code =? 403); cbn in Hin;
        repeat (apply elem_of_cons in Hin as [Hin|Hin];
                [first [discriminate | injection Hin as ->; split; [discriminate | eauto]]|]);
        apply elem_of_nil in Hin; contradiction.
    + intros (Hb & code' & reason' & [= _ _ ->]).
      destruct b as [|c b]; [congruence|]. cbn.
      repeat first [apply list_elem_of_here | apply list_elem_of_further].
  - injection H as _ <-. split; [|intros b]; split.
    + intros Hin. repeat (apply elem_of_cons in Hin as [Hin|Hin]; [discriminate|]).
      apply elem_of_nil in Hin. contradiction.
    + intros (reason & body & Habs). discriminate.
    + intros Hin. repeat (apply elem_of_cons in Hin as [Hin|Hin]; [discriminate|]).
      apply elem_of_nil in Hin. contradiction.
    + intros (_ & code' & reason & Habs). discriminate.
Qed.

Lemma send_webhook_error_lines_witness :
  let urllib := fun _ : request => RaisedHTTPError 403 (lit "Forbidden") (Some (lit "{}")) in
  let e := Embed [] [] 0 [] [] [] [] [] None in
  let trace :=
    [ErrNoticeSending (LengthOf 9);
     UrlOpen (Request (lit "https://x") (build_payload None None e) headers 10);
     ErrHTTPError 403 (lit "Forbidden"); ErrBody (lit "{}"); ErrHint403] in
  send_webhook urllib (lit "https://x") None None e false = Some (false, trace)
  /\ ErrHint403 ∈ trace.
Proof.
  intros urllib e trace.
  assert (H : send_webhook urllib (lit "https://x") None None e false
              = Some (false, trace)) by (vm_compute; reflexivity).
  split; [exact H|].
  apply (send_webhook_error_lines urllib (lit "https://x") None None e false trace H).
  exists (lit "Forbidden"), (Some (lit "{}")). reflexivity.
Defined.

(** ** The colour conversion on its domain *)

Lemma hsl_to_rgb_int_channels (h s l : float) :
  hsl_to_rgb_int h s l
  = (fun '(r, g, b) => Z.shiftl r 16 + Z.shiftl g 8 + b) <$> hsl_channels h s l.
Proof.
  unfold hsl_to_rgb_int, hsl_channels.
  destruct (PyFloat.mod_ (h / 60) 2) as [hp_mod_2|]; [|reflexivity].
  cbn [mbind option_bind].
  repeat match goal with
         | |- context [if ?b then _ else _] => destruct b
         end;
    repeat match goal with
           | |- context [PyFloat.round ?x] => destruct (PyFloat.round x)
           end; reflexivity.
Qed.

Lemma hsl_to_rgb_documented_channels (h s l : float) :
  hsl_to_rgb_documented h s l
  = (fun '(r, g, b) => Z.lor (Z.lor (Z.shiftl r 16) (Z.shiftl g 8)) b)
      <$> hsl_channels h s l.
Proof.
  unfold hsl_to_rgb_documented, hsl_channels.
  destruct (PyFloat.mod_ (h / 60) 2) as [hp_mod_2|]; [|reflexivity].
  cbn [mbind option_bind].
  repeat match goal with
         | |- context [if ?b then _ else _] => destruct b
         end;
    repeat match goal with
           | |- context [PyFloat.round ?x] => destruct (PyFloat.round x)
           end; reflexivity.
Qed.

Lemma byte_above (a n : Z) : 0 <= a < 256 -> 8 <= n -> Z.testbit a n = false.
Proof.
  intros Ha Hn. rewrite <- (Z.mod_small a (2 ^ 8)) by (change (2 ^ 8) with 256; lia).
  apply Z.mod_pow2_bits_high. lia.
Qed.

Lemma pack_add_lor (r g b : Z) :
  0 <= g < 256 -> 0 <= b < 256 ->
  Z.shiftl r 16 + Z.shiftl g 8 + b = Z.lor (Z.lor (Z.shiftl r 16) (Z.shiftl g 8)) b.
Proof.
  intros Hg Hb.
  assert (H1 : Z.land (Z.shiftl r 16) (Z.shiftl g 8) = 0).
  { apply Z.bits_inj'. intros n Hn. rewrite Z.land_spec, Z.bits_0.
    destruct (Z.ltb_spec n 16).
    - rewrite Z.shiftl_spec_low by lia. reflexivity.
    - rewrite (Z.shiftl_spec g) by lia. rewrite (byte_above g) by lia.
      apply andb_false_r. }
  assert (H2 : Z.land (Z.lor (Z.shiftl r 16) (Z.shiftl g 8)) b = 0).
  { apply Z.bits_inj'. intros n Hn. rewrite Z.land_spec, Z.lor_spec, Z.bits_0.
    destruct (Z.ltb_spec n 8).
    - rewrite !Z.shiftl_spec_low by lia. reflexivity.
    - rewrite (byte_above b) by lia. apply andb_false_r. }
  rewrite <- (Z.add_lor_land (Z.shiftl r 16) (Z.shiftl g 8)), H1, Z.add_0_r.
  rewrite <- (Z.add_lor_land (Z.lor (Z.shiftl r 16) (Z.shiftl g 8)) b), H2, Z.add_0_r.
  reflexivity.
Qed.

(** X16: [hsl_to_rgb_int] packs its channels with [+], the documented
    formula with bitwise or.  Whenever the green and blue channels are
    bytes the two give the same integer, namely [r * 65536 + g * 256 + b]. *)
Theorem hsl_packing_agrees (h s l : float) (r g b : Z) :
  hsl_channels h s l = Some (r, g, b) ->
  0 <= g < 256 -> 0 <= b < 256 ->
  hsl_to_rgb_int h s l = Some (r * 65536 + g * 256 + b)
  /\ hsl_to_rgb_documented h s l = hsl_to_rgb_int h s l.
Proof.
  intros Hc Hg Hb.
  rewrite hsl_to_rgb_documented_channels, hsl_to_rgb_int_channels, Hc.
  cbn [fmap option_fmap option_map].
  rewrite <- (pack_add_lor r g b Hg Hb).
  rewrite !Z.shiftl_mul_pow2 by lia. split; reflexivity.
Qed.

Lemma hsl_packing_agrees_witness :
  hsl_channels 37 1 0.5 = Some (255, 157, 0)
  /\ hsl_to_rgb_int 37 1 0.5 = Some (255 * 65536 + 157 * 256 + 0).
Proof.
  assert (H : hsl_channels 37 1 0.5 = Some (255, 157, 0)) by (vm_compute; reflexivity).
  split; [exact H|].
  apply (hsl_packing_agrees 37 1 0.5 255 157 0 H); lia.
Defined.

Lemma forallb_seqZ (f : Z -> bool) (m len x : Z) :
  forallb f (seqZ m len) = true -> m <= x < m + len -> f x = true.
Proof.
  intros H Hx. rewrite forallb_forall in H. apply H.
  apply list_elem_of_In, elem_of_seqZ. exact Hx.
Qed.

Lemma pure_hue_all : forallb pure_hue (seqZ 0 360) = true.
Proof. vm_compute. reflexivity. Qed.

Lemma hsl_in_gamut_all :
  forallb (fun h => forallb (fun s4 => forallb (hsl_in_gamut h s4) (seqZ 0 5))
                            (seqZ 0 5))
          (seqZ 0 360) = true.
Proof. vm_compute. reflexivity. Qed.

(** X17: on the whole degrees of hue from 0 to 359 and the quarters of
    saturation and lightness from 0.0 to 1.0 the conversion never raises
    and each channel is a byte, so the result is a 24-bit colour; at full
    saturation and half lightness the largest channel is 255 and the
    smallest is 0. *)
Theorem hsl_to_rgb_int_in_gamut (h s4 l4 : Z) :
  0 <= h < 360 -> 0 <= s4 <= 4 -> 0 <= l4 <= 4 ->
  (exists r g b,
     hsl_channels (PyFloat.of_small_Z h) (PyFloat.of_small_Z s4 / 4)
       (PyFloat.of_small_Z l4 / 4) = Some (r, g, b)
     /\ 0 <= r <= 255 /\ 0 <= g <= 255 /\ 0 <= b <= 255
     /\ hsl_to_rgb_int (PyFloat.of_small_Z h) (PyFloat.of_small_Z s4 / 4)
          (PyFloat.of_small_Z l4 / 4) = Some (r * 65536 + g * 256 + b)
     /\ 0 <= r * 65536 + g * 256 + b <= 0xFFFFFF)
  /\ exists r g b,
       hsl_channels (PyFloat.of_small_Z h) 1 0.5 = Some (r, g, b)
       /\ Z.max r (Z.max g b) = 255 /\ Z.min r (Z.min g b) = 0.
Proof.
  intros Hh Hs Hl. split.
  - pose proof (forallb_seqZ _ 0 360 h hsl_in_gamut_all ltac:(lia)) as H1.
    pose proof (forallb_seqZ _ 0 5 s4 H1 ltac:(lia)) as H2.
    pose proof (forallb_seqZ _ 0 5 l4 H2 ltac:(lia)) as H3.
    unfold hsl_in_gamut in H3.
    rewrite hsl_to_rgb_int_channels.
    destruct (hsl_channels _ _ _) as [[[r g] b]|]; [|discriminate].
    unfold byte_channels in H3.
    repeat (apply andb_true_iff in H3 as [H3 ?]).
    exists r, g, b. cbn [fmap option_fmap option_map].
    rewrite !Z.shiftl_mul_pow2 by lia.
    repeat split; try reflexivity; lia.
  - pose proof (forallb_seqZ _ 0 360 h pure_hue_all ltac:(lia)) as H1.
    unfold pure_hue in H1.
    destruct (hsl_channels _ _ _) as [[[r g] b]|]; [|discriminate].
    apply andb_true_iff in H1 as [H1 Hmin]. apply andb_true_iff in H1 as [_ Hmax].
    exists r, g, b. split; [reflexivity|]. lia.
Qed.

Lemma hsl_to_rgb_int_in_gamut_witness :
  exists r g b,
    hsl_channels (PyFloat.of_small_Z 37) 1 0.5 = Some (r, g, b)
    /\ Z.max r (Z.max g b) = 255 /\ Z.min r (Z.min g b) = 0.
Proof.
  apply (hsl_to_rgb_int_in_gamut 37 4 2); lia.
Defined.

(** ** What [main] sends *)

Lemma main_network_calls (urllib : request -> http_result) (now : str)
    (getcwd : option str) (str_lower str_capitalize : str -> str)
    (webhook : str) (argv : list str) (status : Z) (trace : list event) :
  main urllib now getcwd str_lower str_capitalize webhook argv = Some (status, trace) ->
  List.filter is_network_call trace = []
  \/ exists a0 title message rest e,
       argv = a0 :: title :: message :: rest
       /\ webhook <> []
       /\ make_embed str_capitalize now (str_lower (strip a0)) title message
            (split_urls rest) = Some e
       /\ List.filter is_network_call trace
          = [UrlOpen (request_of webhook (Some DEFAULT_USERNAME) DEFAULT_AVATAR e)].
Proof.
  unfold main.
  destruct getcwd as [cwd|]; [|discriminate]. cbn [mbind option_bind].
  destruct webhook as [|w0 webhook]; cbn [truthy negb].
  { intros [= _ <-]. left. reflexivity. }
  destruct argv as [|a0 [|title [|message rest]]]; cbn [length Nat.ltb Nat.leb];
    try (intros [= _ <-]; left; reflexivity).
  fold (split_urls rest).
  destruct (make_embed str_capitalize now (str_lower (strip a0)) title message
              (split_urls rest)) as [e|] eqn:He; [|discriminate].
  cbn [mbind option_bind]. unfold DEFAULT_DEBUG.
  pose proof (send_webhook_live urllib (w0 :: webhook) (Some DEFAULT_USERNAME)
                DEFAULT_AVATAR e) as Hlive.
  cbn zeta in Hlive.
  destruct (send_webhook urllib (w0 :: webhook) (Some DEFAULT_USERNAME)
              DEFAULT_AVATAR e false) as [[ok tr]|] eqn:Hsend; [|discriminate].
  intros [= _ <-]. right. exists a0, title, message, rest, e.
  split; [reflexivity|]. split; [discriminate|]. split; [exact He|].
  cbn [List.filter is_network_call app].
  destruct (urllib (request_of (w0 :: webhook) (Some DEFAULT_USERNAME) DEFAULT_AVATAR e));
    [discriminate| | |]; destruct Hlive as (tr' & [= _ <-] & Htr); exact Htr.
Qed.

(** X11: [main] calls [urlopen] at most once, and a request it makes
    goes to the configured webhook with the user name [SABnzbd], the
    avatar of the module and one embed: that of the normalized kind, the
    title, the message and the URLs of the arguments after the message,
    whose first one is the thumbnail. *)
Theorem main_request (urllib : request -> http_result) (now : str)
    (getcwd : option str) (str_lower str_capitalize : str -> str)
    (webhook : str) (argv : list str) (status : Z) (trace : list event) :
  main urllib now getcwd str_lower str_capitalize webhook argv = Some (status, trace) ->
  (network_calls trace <= 1)%nat
  /\ forall req,
       UrlOpen req ∈ trace ->
       exists a0 title message rest e,
         argv = a0 :: title :: message :: rest
         /\ make_embed str_capitalize now (str_lower (strip a0)) title message
              (split_urls rest) = Some e
         /\ embed_thumbnail e = head (split_urls rest)
         /\ req_url req = webhook /\ webhook <> []
         /\ req_headers req = headers /\ req_timeout req = 10
         /\ req_data req !! lit "embeds" = Some (PEmbeds [e])
         /\ req_data req !! lit "username" = Some (PString (lit "SABnzbd"))
         /\ req_data req !! lit "avatar_url"
            = Some (PString (lit "https://github.com/sabnzbd.png")).
Proof.
  intros Hmain. apply main_network_calls in Hmain.
  split.
  - unfold network_calls.
    destruct Hmain as [->|(a0 & title & message & rest & e & _ & _ & _ & ->)]; cbn; lia.
  - intros req Hin.
    assert (Hf : In (UrlOpen req) (List.filter is_network_call trace)).
    { apply filter_In. split; [apply list_elem_of_In, Hin | reflexivity]. }
    destruct Hmain as [Hnil|(a0 & title & message & rest & e & -> & Hw & He & Htr)].
    + rewrite Hnil in Hf. contradiction.
    + rewrite Htr in Hf. destruct Hf as [[= <-]|[]].
      exists a0, title, message, rest, e.
      split; [reflexivity|]. split; [exact He|].
      split.
      { destruct (make_embed_fields str_capitalize now (str_lower (strip a0)) title
                    message (split_urls rest))
          as (e' & He' & _ & _ & _ & _ & _ & Hth).
        rewrite He in He'. injection He' as <-. exact Hth. }
      split; [reflexivity|]. split; [exact Hw|].
      split; [reflexivity|]. split; [reflexivity|].
      cbn [req_data request_of].
      destruct (build_payload_lookup (Some DEFAULT_USERNAME) DEFAULT_AVATAR e)
        as (H1 & H2 & H3 & _).
      split; [exact H1|]. split; [exact H2 | exact H3].
Qed.

Lemma main_request_witness :
  exists status trace,
    main (fun _ => Responded 204) (lit "2026-01-01T00:00:00") (Some (lit "/"))
      lower capitalize (lit "https://discord.com/api/webhooks/1/x")
      [lit "Complete"; lit "T"; lit "M"; lit " a.png , b.png"] = Some (status, trace)
    /\ (network_calls trace <= 1)%nat.
Proof.
  eexists _, _.
  assert (H : main (fun _ => Responded 204) (lit "2026-01-01T00:00:00")
                (Some (lit "/")) lower capitalize
                (lit "https://discord.com/api/webhooks/1/x")
                [lit "Complete"; lit "T"; lit "M"; lit " a.png , b.png"]
              = Some (_, _)) by (vm_compute; reflexivity).
  split; [exact H|].
  apply (main_request _ _ _ _ _ _ _ _ _ H).
Defined.

(** ** The embed of a message without fields *)

(** X12: when the message holds no colon, both field values carry the
    raw event kind after their glyph, and the description is the lines of
    the message joined by line feeds and trimmed, or the title when that
    is empty. *)
Theorem make_embed_without_fields (str_capitalize : str -> str) (now ntype title body : str) (urls : list str) :
  colon ∉ body ->
  exists e,
    make_embed str_capitalize now ntype title body urls = Some e
    /\ embed_fields e
       = [ Field (lit "Category")
             (color_emoji_for_color (map_entry str_capitalize ntype).2 ++ sp ++ ntype) true;
           Field (lit "Download Status") ((map_entry str_capitalize ntype).1.2 ++ sp ++ ntype) true ]
    /\ embed_description e = str_or (strip (join nl (splitlines body))) title.
Proof.
  intros Hc.
  destruct (make_embed_fields str_capitalize now ntype title body urls)
    as (e & He & _ & Hd & _ & _ & Hf & _).
  exists e. split; [exact He|].
  rewrite Hf, Hd, (extract_no_colon body Hc). split; reflexivity.
Qed.

Lemma make_embed_without_fields_witness :
  exists e,
    make_embed capitalize (lit "2026-01-01T00:00:00") (lit "pp") (lit "T") (lit " unpacking ") []
    = Some e
    /\ embed_description e = lit "unpacking".
Proof.
  destruct (make_embed_without_fields capitalize (lit "2026-01-01T00:00:00") (lit "pp") (lit "T")
              (lit " unpacking ") []) as (e & He & _ & Hd).
  - vm_compute. intros H. repeat (apply elem_of_cons in H as [H|H]; [discriminate|]).
    apply elem_of_nil in H. exact H.
  - exists e. split; [exact He|]. rewrite Hd. reflexivity.
Defined.

(** X13: the description of an embed is the title as given, or else a
    non-empty text that neither starts nor ends with white space. *)
Theorem description_is_trimmed (str_capitalize : str -> str) (now ntype title body : str) (urls : list str) :
  exists e,
    make_embed str_capitalize now ntype title body urls = Some e
    /\ (embed_description e = title
        \/ (embed_description e <> []
            /\ strip (embed_description e) = embed_description e
            /\ (forall c, head (embed_description e) = Some c -> isspace c = false)
            /\ (forall c, last (embed_description e) = Some c -> isspace c = false))).
Proof.
  destruct (make_embed_fields str_capitalize now ntype title body urls)
    as (e & He & _ & Hd & _).
  exists e. split; [exact He|]. rewrite Hd.
  destruct (extract_cleaned_trimmed body) as (Hs & Hh & Hl).
  unfold str_or. destruct (extract_fields_from_message body).1 as [|c r] eqn:E; cbn [truthy].
  - left. reflexivity.
  - right. split; [discriminate|]. split; [exact Hs|]. split; [exact Hh | exact Hl].
Qed.

(** ** The mask of a secret *)

(** X14: [masked_len] reports a secret that is absent or empty as not
    set and any other by its exact length, so two secrets get the same
    mask exactly when they have the same length. *)
Theorem masked_len_shows_length_only (s1 s2 : option str) :
  (masked_len s1 = NotSet <-> s1 = None \/ s1 = Some [])
  /\ (forall s, s <> [] -> masked_len (Some s) = LengthOf (length s))
  /\ (masked_len s1 = masked_len s2
      <-> length (default [] s1) = length (default [] s2)).
Proof.
  split; [|split].
  - destruct s1 as [[|c s]|]; cbn; split; auto; try discriminate.
    intros [H|H]; discriminate.
  - intros [|c s] Hs; [congruence | reflexivity].
  - destruct s1 as [[|c1 s1]|], s2 as [[|c2 s2]|]; cbn;
      split; intros H; try reflexivity; try discriminate; congruence.
Qed.

(** ** The warning about line endings *)

Lemma has_crlf_true (bytes : list Z) :
  has_crlf bytes = true
  <-> exists i : nat, bytes !! i = Some 13 /\ bytes !! S i = Some 10.
Proof.
  induction bytes as [|c r IH]; cbn [has_crlf].
  - split; [discriminate | intros (i & H & _); discriminate].
  - destruct r as [|c' r'].
    + split; [discriminate|]. intros ([|i] & H1 & H2); discriminate.
    + rewrite orb_true_iff, andb_true_iff, IH, !Z.eqb_eq. split.
      * intros [[-> ->]|(i & H1 & H2)]; [exists 0%nat; split; reflexivity|].
        exists (S i). split; assumption.
      * intros ([|i] & H1 & H2).
        -- left. cbn in H1, H2. split; congruence.
        -- right. exists i. split; assumption.
Qed.

(** X15: the warning is printed exactly when the script file could be
    read and a carriage return directly followed by a line feed lies
    within its first 4096 bytes; a pair that ends beyond them is not
    seen. *)
Theorem maybe_warn_line_endings_iff (script : option (list Z)) :
  maybe_warn_line_endings script = true
  <-> exists bytes (i : nat),
        script = Some bytes /\ (S i < 4096)%nat
        /\ bytes !! i = Some 13 /\ bytes !! S i = Some 10.
Proof.
  destruct script as [bytes|]; cbn [maybe_warn_line_endings].
  - rewrite has_crlf_true. split.
    + intros (i & H1 & H2).
      apply lookup_take_Some in H2 as [H2 Hi]. apply lookup_take_Some in H1 as [H1 _].
      exists bytes, i. auto.
    + intros (bytes' & i & [= <-] & Hi & H1 & H2).
      exists i. rewrite !lookup_take_lt by lia. auto.
  - split; [discriminate | intros (bytes & i & H & _); discriminate].
Qed.
